(** * Patient intake relay: token codec, payload normaliser, phone formatting

    A shallow embedding of the parts of [token_manager.py],
    [multipart_converter.py], [sms_service.py] and [app.py] that the
    specification speaks about, followed by the properties proved of them.

    Python values are embedded as the inductive [value]; dictionaries are
    finite maps with string keys; text is a list of Unicode code points;
    an operation that can raise returns a [result]. *)

From Stdlib Require Import ZArith QArith Qround String Ascii List Bool Lia Lqa.
From stdpp Require Import gmap strings list fin_maps.

Set Warnings "-register-all".
#[local] Open Scope Z_scope.

(** ** Python values *)

Module Py.

(** A [str] is a sequence of code points. *)
Abbreviation codepoint := N (only parsing).
Abbreviation pystr := (list N) (only parsing).

(** The code points of an ASCII literal. *)
Definition str_of (s : string) : pystr :=
  map N_of_ascii (list_ascii_of_string s).

Inductive value :=
  | VNone
  | VBool (b : bool)
  | VInt (n : Z)
  | VFloat (q : Q)
  | VStr (s : pystr)
  | VList (l : list value)
  | VDict (d : gmap string value).

(** The exceptions the modelled code can meet.  [BadTimeSignature],
    [BadPayload] and [SignatureExpired] are subclasses of [BadSignature]
    in itsdangerous. *)
Inductive exn :=
  | SignatureExpired
  | BadSignature
  | BadTimeSignature
  | BadPayload
  | ValueError
  | KeyError
  | TypeError.

Inductive result (A : Type) :=
  | Return (a : A)
  | Raise (e : exn).
Arguments Return {A} a.
Arguments Raise {A} e.

#[export] Instance result_ret : MRet result := λ A a, Return a.
#[export] Instance result_bind : MBind result := λ A B k r,
  match r with
  | Return a => k a
  | Raise e => Raise e
  end.

(** [try: body / except handles: handler]. *)
Definition try_except {A} (body : result A) (handles : exn → bool)
    (handler : result A) : result A :=
  match body with
  | Return a => Return a
  | Raise e => if handles e then handler else Raise e
  end.

(** A dictionary is truthy when it has an item. *)
Definition nonempty {A} (d : gmap string A) : bool :=
  match map_to_list d with
  | [] => false
  | _ => true
  end.

(** [bool(v)]: the truth value of a Python object. *)
Definition truthy (v : value) : bool :=
  match v with
  | VNone => false
  | VBool b => b
  | VInt n => negb (n =? 0)
  | VFloat q => negb (Qeq_bool q 0)
  | VStr s => match s with [] => false | _ => true end
  | VList l => match l with [] => false | _ => true end
  | VDict d => nonempty d
  end.

(** [any(d.values())]. *)
Definition any_values (d : gmap string value) : bool :=
  existsb truthy (map_to_list d).*2.

(** [d.get(k, default)]. *)
Definition dict_get (d : gmap string value) (k : string) (dflt : value) : value :=
  match d !! k with
  | Some v => v
  | None => dflt
  end.

(** Whitespace in the sense of [str.strip()] and [str.isspace()]. *)
Definition is_space (c : codepoint) : bool :=
  (((9 <=? c) && (c <=? 13)) || ((28 <=? c) && (c <=? 32))
   || (c =? 133) || (c =? 160) || (c =? 5760)
   || ((8192 <=? c) && (c <=? 8202))
   || (c =? 8232) || (c =? 8233) || (c =? 8239) || (c =? 8287)
   || (c =? 12288))%N.

Fixpoint lstrip (s : pystr) : pystr :=
  match s with
  | [] => []
  | c :: s' => if is_space c then lstrip s' else s
  end.

Definition rstrip (s : pystr) : pystr := reverse (lstrip (reverse s)).

(** [s.strip()] *)
Definition strip (s : pystr) : pystr := rstrip (lstrip s).


(** [ord(c) >= 32] *)
Definition printable (c : codepoint) : Prop := (32 <=? c)%N = true.

(** [s.replace(old, new)] for a non-empty [old]: occurrences are replaced
    from left to right and do not overlap.  [skip] counts the characters of
    an occurrence still to be passed over. *)
Fixpoint replace_from (old new : string) (skip : nat) (s : string) : string :=
  match s with
  | EmptyString => EmptyString
  | String c s' =>
      match skip with
      | S k => replace_from old new k s'
      | O =>
          if String.prefix old s
          then (new ++ replace_from old new (String.length old - 1) s')%string
          else String c (replace_from old new 0 s')
      end
  end.

Definition replace (old new s : string) : string := replace_from old new 0 s.

(** [round(x, 2)] of an exact rational: the nearest multiple of 1/100, a tie
    going to the even neighbour.  Floats are modelled by the rationals they
    denote. *)
Definition round_half_even (q : Q) : Z :=
  let f := Qfloor q in
  match Qcompare (q - inject_Z f) (1 # 2) with
  | Lt => f
  | Gt => f + 1
  | Eq => if Z.even f then f else f + 1
  end.

Definition round2 (q : Q) : Q :=
  Qred (inject_Z (round_half_even (q * 100)) / 100).

End Py.
Import Py.

(** ** multipart_converter.py *)

Module MultipartConverter.

Definition personal_fields : list string :=
  ["first_name"; "last_name"; "date_of_birth"]%string.
Definition contact_fields : list string := ["phone"; "email"]%string.
Definition address_fields : list string :=
  ["street_address"; "city"; "state"; "zip_code"]%string.
Definition emergency_fields : list string :=
  ["emergency_contact_name"; "emergency_contact_phone";
   "emergency_contact_relationship"]%string.
Definition insurance_fields : list string :=
  ["insurance_provider"; "insurance_id"; "primary_physician"]%string.
Definition medical_fields : list string :=
  ["current_medications"; "allergies"; "medical_history"]%string.
Definition visit_fields : list string := ["reason_for_visit"]%string.

Definition sections_to_check : list string :=
  ["personal_information"; "contact_information"; "address";
   "emergency_contact"; "visit_information"]%string.

(** [_sanitize_field] *)
Definition _sanitize_field (v : value) : value :=
  if negb (truthy v) then VNone
  else match v with
       | VStr s =>
           let sanitized := strip s in
           let sanitized := filter (λ char, (32 <=? char)%N = true) sanitized in
           if truthy (VStr sanitized) then VStr sanitized else VNone
       | _ => v
       end.

(** One of the seven [for field in ..._fields] loops: [out_key] is the key
    the field is stored under (the field name itself except for the
    emergency contact). *)
Definition process_fields (out_key : string → string) (fields : list string)
    (form_data : gmap string value) : gmap string value :=
  foldl (λ section field,
           match form_data !! field with
           | Some v =>
               if truthy v then <[out_key field := _sanitize_field v]> section
               else section
           | None => section
           end) ∅ fields.

Definition clean_field (field : string) : string :=
  replace "emergency_contact_" "" field.

(** An uploaded file, as werkzeug's [FileStorage]: its truth value is that
    of its file name, and [read()] yields its content. *)
Record file_obj := {
  filename : pystr;
  content_type : pystr;
  content_size : Z
}.

(** [_process_files] *)
Definition _process_files (files : gmap string file_obj) : value :=
  let file_info :=
    map_fold (λ field_name f acc,
                if truthy (VStr (filename f))
                then <[field_name :=
                         VDict (<["filename" := VStr (filename f)]>
                                (<["content_type" := VStr (content_type f)]>
                                 (<["size" := VInt (content_size f)]> ∅)))]> acc
                else acc) ∅ files in
  if truthy (VDict file_info) then VDict file_info else VNone.

(** [str(v).strip()] is empty.  Only a [str] can be blank: the text of any
    other truthy value starts with a letter, a digit, a sign or a bracket. *)
Definition str_blank (v : value) : bool :=
  match v with
  | VStr s => negb (truthy (VStr (strip s)))
  | _ => false
  end.

(** The two counters of [_calculate_completeness_score] after the items of
    one section. *)
Definition count_items (acc : nat * nat) (d : gmap string value) : nat * nat :=
  map_fold (λ _ field_value acc,
              let total_fields := S acc.1 in
              if truthy field_value && negb (str_blank field_value)
              then (total_fields, S acc.2)
              else (total_fields, acc.2)) acc d.

Definition count_sections (data : gmap string value) : nat * nat :=
  foldl (λ acc section,
           match data !! section with
           | Some (VDict d) => count_items acc d
           | _ => acc
           end) (0%nat, 0%nat) sections_to_check.

(** [_calculate_completeness_score].  No step of the body can raise on a
    [value], so the [except Exception] branch is not represented. *)
Definition _calculate_completeness_score (data : gmap string value) : value :=
  let '(total_fields, completed_fields) := count_sections data in
  if (total_fields =? 0)%nat then VInt 0
  else
    let score :=
      (inject_Z (Z.of_nat completed_fields) / inject_Z (Z.of_nat total_fields)
       * 100)%Q in
    VFloat (round2 score).

(** [structured_data] as it stands after the seven loops and the file
    upload step.  [files] is a dictionary of uploads; the default [None] and
    the empty dictionary are both falsy and are both modelled by [∅]. *)
Definition structured (form_data : gmap string value)
    (files : gmap string file_obj) : gmap string value :=
  let structured_data : gmap string value :=
    <["visit_information" := VDict (process_fields id visit_fields form_data)]>
    (<["medical_information" := VDict (process_fields id medical_fields form_data)]>
    (<["insurance_information" := VDict (process_fields id insurance_fields form_data)]>
    (<["emergency_contact" := VDict (process_fields clean_field emergency_fields form_data)]>
    (<["address" := VDict (process_fields id address_fields form_data)]>
    (<["contact_information" := VDict (process_fields id contact_fields form_data)]>
    (<["personal_information" := VDict (process_fields id personal_fields form_data)]>
     ∅)))))) in
  if nonempty files
  then <["uploaded_documents" := _process_files files]> structured_data
  else structured_data.

(** The [total_fields] entry: the number of keys of the dictionaries among
    the values of [structured_data]. *)
Definition total_fields (structured_data : gmap string value) : nat :=
  map_fold (λ _ section n,
              match section with
              | VDict d => (n + size d)%nat
              | _ => n
              end) 0%nat structured_data.

(** The condition of the comprehension that removes empty sections. *)
Definition keep (v : value) : bool :=
  truthy v && match v with
              | VDict d => any_values d
              | _ => true
              end.

(** [convert_form_to_json].  [processed_at] is the text of
    [datetime.utcnow().isoformat()].  Nothing in the body raises on a
    dictionary of values, so the re-raising handler is not represented. *)
Definition convert_form_to_json (processed_at : pystr)
    (form_data : gmap string value) (files : gmap string file_obj)
    : gmap string value :=
  let structured_data := structured form_data files in
  let processing_info : gmap string value :=
    <["data_quality_score" := _calculate_completeness_score structured_data]>
    (<["total_fields" := VInt (Z.of_nat (total_fields structured_data))]>
    (<["converter_version" := VStr (str_of "2.0")]>
    (<["processed_at" := VStr processed_at]> ∅))) in
  let structured_data := <["processing_info" := VDict processing_info]> structured_data in
  filter (λ kv, keep kv.2) structured_data.

End MultipartConverter.


(** ** token_manager.py *)

Module TokenManager.

(** A [datetime]: microseconds since the epoch on its own clock face, and
    the UTC offset when it is timezone-aware ([None] for a naive one, as
    [datetime.utcnow()] returns). *)
Record datetime := {
  micros : Z;
  utcoffset : option Z
}.

(** A token string as [URLSafeTimedSerializer] reads it.  The URL-safe
    base64 and JSON text of the segments is not represented: a string of the
    shape [payload.timestamp.signature] is given by what its first two
    segments decode to ([None] when a segment does not decode) and by its
    signature segment; any other string is [Unframed]. *)
Inductive token :=
  | Unframed (text : string)
  | Framed (payload : option value) (timestamp : option Z) (signature : string).

(** [int(time.time())] for a clock reading in microseconds. *)
Definition get_timestamp (now : Z) : Z := Z.quot now 1000000.

(** [self.token_expiry] *)
Definition token_expiry : Z := 24 * 60 * 60.

(** [timedelta(hours=h)] in microseconds. *)
Definition timedelta_hours (h : Z) : Z := h * 3600 * 1000000.

(** [except (SignatureExpired, BadSignature, ValueError)], subclasses
    included. *)
Definition handled (e : exn) : bool :=
  match e with
  | SignatureExpired | BadSignature | BadTimeSignature | BadPayload
  | ValueError => true
  | KeyError | TypeError => false
  end.

(** [payload[k]] *)
Definition subscript (payload : value) (k : string) : result value :=
  match payload with
  | VDict d =>
      match d !! k with
      | Some v => Return v
      | None => Raise KeyError
      end
  | _ => Raise TypeError
  end.

(** [datetime.utcnow() - d] in microseconds: a naive and an aware datetime
    cannot be subtracted. *)
Definition utcnow_minus (now : Z) (d : datetime) : result Z :=
  match utcoffset d with
  | None => Return (now - micros d)
  | Some _ => Raise TypeError
  end.

Section Codec.

(** The keyed digest of the signer over the two signed segments, the text
    [datetime.isoformat()] gives a naive datetime, and
    [datetime.fromisoformat] ([None] where it raises [ValueError]). *)
Variable mac : string → option value → option Z → string.
Variable isoformat : Z → pystr.
Variable fromisoformat : pystr → option datetime.

(** [serializer.dumps(payload)] at the timestamp [ts]. *)
Definition dumps (secret_key : string) (ts : Z) (payload : value) : token :=
  Framed (Some payload) (Some ts) (mac secret_key (Some payload) (Some ts)).

(** [serializer.loads(token, max_age)]: the signature is checked first, then
    the timestamp and the age of the signature, then the payload is
    decoded. *)
Definition loads (secret_key : string) (now : Z) (max_age : Z) (t : token)
    : result value :=
  match t with
  | Unframed _ => Raise BadSignature
  | Framed payload timestamp signature =>
      if negb (String.eqb signature (mac secret_key payload timestamp))
      then Raise BadTimeSignature
      else
        match timestamp with
        | None => Raise BadTimeSignature
        | Some ts =>
            let age := get_timestamp now - ts in
            if age >? max_age then Raise SignatureExpired
            else if age <? 0 then Raise SignatureExpired
            else match payload with
                 | None => Raise BadPayload
                 | Some p => Return p
                 end
        end
  end.

(** [datetime.fromisoformat(v)] *)
Definition datetime_fromisoformat (v : value) : result datetime :=
  match v with
  | VStr s =>
      match fromisoformat s with
      | Some d => Return d
      | None => Raise ValueError
      end
  | _ => Raise TypeError
  end.

(** [generate_token], at the clock reading [now] and with [nonce] the text
    of [secrets.token_hex(8)]. *)
Definition generate_token (secret_key : string) (now : Z) (nonce : pystr)
    (patient_identifier clinic_id : value) : token :=
  let payload : gmap string value :=
    <["nonce" := VStr nonce]>
    (<["created_at" := VStr (isoformat now)]>
    (<["clinic_id" := clinic_id]>
    (<["patient_id" := patient_identifier]> ∅))) in
  dumps secret_key (get_timestamp now) (VDict payload).

(** The second age check of [validate_token], on the [created_at] claim. *)
Definition created_at_check (now : Z) (payload : value) : result value :=
  v ← subscript payload "created_at";
  created_at ← datetime_fromisoformat v;
  delta ← utcnow_minus now created_at;
  if delta >? timedelta_hours 24 then Return VNone else Return payload.

(** [validate_token] at the clock reading [now]. *)
Definition validate_token (secret_key : string) (now : Z) (t : token)
    : result value :=
  try_except
    (payload ← loads secret_key now token_expiry t;
     created_at_check now payload)
    handled (Return VNone).

End Codec.

End TokenManager.

(** ** sms_service.py *)

Module SMSService.

Section Phone.

(** The decimal digits of the Unicode database, which [\d] matches on a
    [str] pattern. *)
Variable is_digit : codepoint → bool.




End Phone.

End SMSService.

(** ** app.py *)

Module App.

(** The body of the loop over [form_data.items()] in
    [submit_pediatric_intake]. *)
Definition collapse (field_value : value) : value :=
  match field_value with
  | VList l =>
      if (length l =? 1)%nat
      then match l with
           | x :: _ => x
           | [] => field_value
           end
      else field_value
  | _ => field_value
  end.

(** [pediatric_data] built from [request.form.to_dict(flat=False)]. *)
Definition pediatric_data (form_data : gmap string value) : gmap string value :=
  map_fold (λ field_name field_value acc, <[field_name := collapse field_value]> acc)
    ∅ form_data.

(** The [medical_history] section of the pediatric package. *)
Definition medical_history (pediatric_data : gmap string value)
    : gmap string value :=
  <["family_conditions" := dict_get pediatric_data "family_medical_history" (VList [])]>
  (<["child_conditions" := dict_get pediatric_data "child_medical_history" (VList [])]> ∅).

(** What a link generation route answers: a 400 error, or the link built on
    a token. *)
Inductive link_response :=
  | BadRequest (error : string)
  | Link (t : TokenManager.token) (patient_id clinic_id : value).

Section Routes.

Variable mac : string → option value → option Z → string.
Variable isoformat : Z → pystr.

(** [generate_pediatric_link], after [data = request.get_json()]. *)
Definition generate_pediatric_link (secret_key : string) (now : Z)
    (nonce : pystr) (data : gmap string value) : link_response :=
  let patient_id := dict_get data "patient_id" VNone in
  let clinic_id := dict_get data "clinic_id" (VStr (str_of "houston_pediatric")) in
  if negb (truthy patient_id) then BadRequest "patient_id is required"
  else
    let t := TokenManager.generate_token mac isoformat secret_key now nonce
               patient_id clinic_id in
    Link t patient_id clinic_id.

End Routes.

End App.

(** ** The normaliser in the words of the specification *)

Import MultipartConverter.

Module NormalizerSpec.

(** The raw value of a field that passes the guard
    [field in form_data and form_data[field]]. *)
Definition submitted (form_data : gmap string value) (field : string)
    : option value :=
  match form_data !! field with
  | Some v => if truthy v then Some v else None
  | None => None
  end.

(** A value that counts as completed in the score. *)
Definition filled (v : value) : bool := truthy v && negb (str_blank v).

(** The section table of [convert_form_to_json]: section, output key,
    raw fields. *)
Definition schema : list (string * (string → string) * list string) :=
  [("personal_information", id, personal_fields);
   ("contact_information", id, contact_fields);
   ("address", id, address_fields);
   ("emergency_contact", clean_field, emergency_fields);
   ("insurance_information", id, insurance_fields);
   ("medical_information", id, medical_fields);
   ("visit_information", id, visit_fields)]%string.

(** The raw fields of the sections the score looks at. *)
Definition scored_fields : list string :=
  personal_fields ++ contact_fields ++ address_fields ++ emergency_fields
  ++ visit_fields.

(** A scored field is defined when its key is assigned in its section. *)
Definition is_defined (form_data : gmap string value) (field : string) : bool :=
  match submitted form_data field with
  | Some _ => true
  | None => false
  end.

(** ... and non-empty when the value assigned to it is filled. *)
Definition is_nonempty (form_data : gmap string value) (field : string) : bool :=
  match submitted form_data field with
  | Some v => filled (_sanitize_field v)
  | None => false
  end.

Definition defined_count (form_data : gmap string value) : nat :=
  length (filter (λ f, is_defined form_data f) scored_fields).

Definition nonempty_count (form_data : gmap string value) : nat :=
  length (filter (λ f, is_nonempty form_data f) scored_fields).

(** The score as the specification words it. *)
Definition completeness_score (form_data : gmap string value) : value :=
  if (defined_count form_data =? 0)%nat then VInt 0
  else VFloat (round2 (inject_Z (Z.of_nat (nonempty_count form_data))
                       / inject_Z (Z.of_nat (defined_count form_data)) * 100)).

(** The items one field loop assigns, in the order of the fields. *)
Definition assigned (out_key : string → string) (fields : list string)
    (form_data : gmap string value)
    : list (string * value) :=
  omap (λ f, (λ v, (out_key f, _sanitize_field v)) <$> submitted form_data f) fields.


End NormalizerSpec.
Import NormalizerSpec.

(** ** Claims records and a codec for examples *)

Module TokenSpec.
Import TokenManager.

(** The claims record [generate_token] signs. *)
Definition minted_claims (isoformat : Z → pystr) (now : Z) (nonce : pystr)
    (patient_identifier clinic_id : value) : gmap string value :=
  <["nonce" := VStr nonce]>
  (<["created_at" := VStr (isoformat now)]>
  (<["clinic_id" := clinic_id]>
  (<["patient_id" := patient_identifier]> ∅))).

(** One second, and the two instants of the expiry property, in
    microseconds. *)
Definition seconds (n : Z) : Z := n * 1000000.

(** A codec for naive datetimes that satisfies the round trip: a sign and a
    magnitude. *)
Definition sm_isoformat (t : Z) : pystr :=
  [if t <? 0 then 1%N else 0%N; Z.abs_N t].

Definition sm_fromisoformat (s : pystr) : option datetime :=
  match s with
  | [sg; m] =>
      Some {| micros := if (sg =? 1)%N then - Z.of_N m else Z.of_N m;
              utcoffset := None |}
  | _ => None
  end.

(** A keyed digest for examples. *)
Definition sm_mac (key : string) (payload : option value) (ts : option Z)
    : string := key.

End TokenSpec.
Import TokenManager TokenSpec.

(** ** Phone numbers in the words of the claim *)

Module PhoneSpec.



End PhoneSpec.
Import PhoneSpec.

Module TokenFacts.

(** A token carries the signature the serializer computes under
    [secret_key] for its own payload and timestamp segments. *)
Definition signed_by (mac : string → option value → option Z → string)
    (secret_key : string) (t : token) : Prop :=
  match t with
  | Unframed _ => False
  | Framed payload timestamp signature =>
      signature = mac secret_key payload timestamp
  end.

(** The age in seconds of the signature of a token at the clock reading
    [now], when its timestamp segment decodes. *)
Definition signature_age (now : Z) (t : token) : option Z :=
  match t with
  | Framed _ (Some ts) _ => Some (get_timestamp now - ts)
  | _ => None
  end.

End TokenFacts.
Import TokenFacts.

Module ConverterFacts.

(** Every raw field [convert_form_to_json] reads. *)
Definition all_fields : list string :=
  personal_fields ++ contact_fields ++ address_fields ++ emergency_fields
  ++ insurance_fields ++ medical_fields ++ visit_fields.

(** The entry [_process_files] records for one upload. *)
Definition file_entry (f : file_obj) : value :=
  VDict (<["filename" := VStr (filename f)]>
         (<["content_type" := VStr (content_type f)]>
          (<["size" := VInt (content_size f)]> ∅))).

(** The uploads that have a file name, with their entries. *)
Definition named_uploads (files : gmap string file_obj) : gmap string value :=
  omap (λ f, if truthy (VStr (filename f)) then Some (file_entry f) else None)
    files.

(** The keys a returned document can have. *)
Definition document_keys : gset string :=
  {["personal_information"; "contact_information"; "address";
    "emergency_contact"; "insurance_information"; "medical_information";
    "visit_information"; "uploaded_documents"; "processing_info"]}.

End ConverterFacts.
Import ConverterFacts.

Module TotalsFacts.

(** The number of keys of a value that is a dictionary. *)
Definition keys_of (v : value) : nat :=
  match v with
  | VDict d => size d
  | _ => 0%nat
  end.

End TotalsFacts.
Import TotalsFacts.

(** ** multipart_converter.py: [validate_required_fields] *)

Module RequiredFields.

Definition required_fields : list (string * list string) :=
  [("personal_information", ["first_name"; "last_name"; "date_of_birth"]);
   ("contact_information", ["phone"]);
   ("address", ["street_address"; "city"; "state"; "zip_code"]);
   ("emergency_contact", ["name"; "phone"]);
   ("visit_information", ["reason_for_visit"])]%string.

(** The text [section.field] *)
Definition dotted (section field : string) : string :=
  (section ++ "." ++ field)%string.

Fixpoint starts_with (p s : pystr) : bool :=
  match p, s with
  | [], _ => true
  | a :: p', b :: s' => (a =? b)%N && starts_with p' s'
  | _ :: _, [] => false
  end.

(** [p in s] for two strings. *)
Fixpoint occurs_in (p s : pystr) : bool :=
  starts_with p s
  || match s with
     | [] => false
     | _ :: s' => occurs_in p s'
     end.

(** [field in container]: a key of a dictionary, a part of a string, an
    element of a list; any other container is not iterable. *)
Definition contains (container : value) (field : string) : result bool :=
  match container with
  | VDict d => Return (bool_decide (is_Some (d !! field)))
  | VStr s => Return (occurs_in (str_of field) s)
  | VList l =>
      Return (existsb (λ v, match v with
                            | VStr t => bool_decide (t = str_of field)
                            | _ => false
                            end) l)
  | _ => Raise TypeError
  end.

(** [field not in container or not container[field]] *)
Definition field_missing (container : value) (field : string) : result bool :=
  present ← contains container field;
  if negb present then Return true
  else v ← subscript container field; Return (negb (truthy v)).

(** The inner loop over the fields of a section that is present. *)
Definition check_fields (section : string) (container : value)
    (fields : list string) (missing_fields : result (list string))
    : result (list string) :=
  foldl (λ (acc : result (list string)) field,
           missing_fields ← acc;
           m ← field_missing container field;
           Return (if (m : bool) then missing_fields ++ [dotted section field]
                   else missing_fields))
    missing_fields fields.

(** One turn of the outer loop: a section that is absent has all its
    fields reported. *)
Definition check_section (data : gmap string value)
    (missing_fields : result (list string)) (section : string)
    (fields : list string) : result (list string) :=
  match data !! section with
  | None =>
      missing_fields ← missing_fields;
      Return (missing_fields ++ (dotted section <$> fields))
  | Some container => check_fields section container fields missing_fields
  end.

(** [validate_required_fields] *)
Definition validate_required_fields (data : gmap string value)
    : result (list string) :=
  foldl (λ acc '(section, fields), check_section data acc section fields)
    (Return []) required_fields.

End RequiredFields.

Module RequiredSpec.
Import RequiredFields.

(** The raw field behind a key of a section. *)
Definition raw_name (section field : string) : string :=
  if String.eqb section "emergency_contact"
  then ("emergency_contact_" ++ field)%string
  else field.

(** A required field is provided when its raw field was submitted with a
    value that is truthy once sanitised. *)
Definition provided (form_data : gmap string value) (section field : string)
    : bool :=
  match submitted form_data (raw_name section field) with
  | Some v => truthy (_sanitize_field v)
  | None => false
  end.

(** The required fields not provided, in the order of the table. *)
Definition not_provided (form_data : gmap string value) : list string :=
  '(section, fields) ← required_fields;
  dotted section <$> filter (λ f, provided form_data section f = false) fields.

(** A key is absent from a dictionary or bound to a falsy value. *)
Definition missing_in (d : gmap string value) (field : string) : bool :=
  match d !! field with
  | Some v => negb (truthy v)
  | None => true
  end.

(** What [validate_required_fields] finds at a field of a section when the
    sections present are dictionaries. *)
Definition missing_at (data : gmap string value) (section field : string)
    : bool :=
  match data !! section with
  | None => true
  | Some (VDict d) => missing_in d field
  | Some _ => false
  end.

(** A value that is neither a dictionary, a string nor a list. *)
Definition not_iterable (v : value) : bool :=
  match v with
  | VNone | VBool _ | VInt _ | VFloat _ => true
  | _ => false
  end.

End RequiredSpec.
Import RequiredFields RequiredSpec.

(** * Properties *)

(** ** Sanitisation *)

Section Sanitize.

Implicit Types s t : list N.




Lemma lstrip_suffix s : ∃ pre, s = pre ++ lstrip s.
Proof.
  induction s as [|c s [pre IH]]; [by exists []|]. simpl.
  destruct (is_space c).
  - exists (c :: pre). simpl. by rewrite <- IH.
  - by exists [].
Qed.









Lemma sanitize_str s :
  _sanitize_field (VStr s) =
  match filter printable (strip s) with
  | [] => VNone
  | t => VStr t
  end.
Proof.
  unfold _sanitize_field. destruct s as [|c s]; [done|]. simpl negb. cbv iota.
  fold printable. by destruct (filter printable (strip (c :: s))).
Qed.




End Sanitize.

(** ** Field loops and counters *)

Section Normalizer.

Implicit Types form_data : gmap string value.
Implicit Types fields : list string.

Lemma process_fields_snoc out_key fields f form_data :
  process_fields out_key (fields ++ [f]) form_data =
  match submitted form_data f with
  | Some v => <[out_key f := _sanitize_field v]> (process_fields out_key fields form_data)
  | None => process_fields out_key fields form_data
  end.
Proof.
  unfold process_fields, submitted. rewrite foldl_snoc.
  destruct (form_data !! f) as [v|]; [|done]. by destruct (truthy v).
Qed.

Lemma process_fields_lookup_Some out_key fields form_data k w :
  process_fields out_key fields form_data !! k = Some w →
  ∃ f v, f ∈ fields ∧ out_key f = k ∧ submitted form_data f = Some v
         ∧ w = _sanitize_field v.
Proof.
  induction fields as [|f fields IH] using rev_ind.
  - unfold process_fields. simpl. by rewrite lookup_empty.
  - rewrite process_fields_snoc.
    destruct (submitted form_data f) as [v|] eqn:E.
    + destruct (decide (out_key f = k)) as [<-|Hne].
      * rewrite lookup_insert_eq. intros [= <-].
        exists f, v. rewrite elem_of_app, list_elem_of_singleton. auto.
      * rewrite lookup_insert_ne by done. intros H.
        destruct (IH H) as (g & u & ? & ? & ? & ?). exists g, u.
        rewrite elem_of_app. auto.
    + intros H. destruct (IH H) as (g & u & ? & ? & ? & ?). exists g, u.
      rewrite elem_of_app. auto.
Qed.

Lemma process_fields_lookup_None out_key fields form_data k :
  k ∉ out_key <$> fields → process_fields out_key fields form_data !! k = None.
Proof.
  intros Hk. destruct (process_fields _ _ _ !! k) as [w|] eqn:E; [|done].
  apply process_fields_lookup_Some in E as (f & v & Hf & <- & _).
  destruct Hk. by apply list_elem_of_fmap_2.
Qed.

(** The key of a mapped field is present exactly when the raw field passes
    the guard, and is bound to the sanitised value. *)
Lemma process_fields_lookup out_key fields form_data f :
  NoDup (out_key <$> fields) → f ∈ fields →
  process_fields out_key fields form_data !! out_key f =
  _sanitize_field <$> submitted form_data f.
Proof.
  induction fields as [|g fields IH] using rev_ind; [by intros _ ?%elem_of_nil|].
  rewrite fmap_app, NoDup_app. simpl. intros (Hnd & Hdisj & _).
  rewrite elem_of_app, list_elem_of_singleton, process_fields_snoc.
  intros [Hf| ->].
  - assert (out_key g ≠ out_key f) as Hne.
    { intros Heq. apply (Hdisj (out_key f)); [by apply list_elem_of_fmap_2|].
      rewrite Heq. by left. }
    destruct (submitted form_data g); [rewrite lookup_insert_ne by done|]; auto.
  - destruct (submitted form_data g) as [v|]; [by rewrite lookup_insert_eq|].
    simpl. apply process_fields_lookup_None. intros Hin.
    apply (Hdisj _ Hin). by left.
Qed.

Lemma process_fields_items out_key fields form_data :
  NoDup (out_key <$> fields) →
  map_to_list (process_fields out_key fields form_data)
  ≡ₚ assigned out_key fields form_data.
Proof.
  induction fields as [|g fields IH] using rev_ind.
  - intros _. unfold process_fields. simpl. by rewrite map_to_list_empty.
  - rewrite fmap_app, NoDup_app. simpl. intros (Hnd & Hdisj & _).
    unfold assigned. rewrite omap_app, process_fields_snoc. simpl.
    fold (assigned out_key fields form_data).
    destruct (submitted form_data g) as [v|]; simpl.
    + rewrite map_to_list_insert.
      * rewrite (IH Hnd). by rewrite Permutation_cons_append.
      * apply process_fields_lookup_None. intros Hin. apply (Hdisj _ Hin). by left.
    + rewrite app_nil_r. auto.
Qed.

Lemma count_items_list acc (d : gmap string value) :
  count_items acc d =
  ((acc.1 + length (map_to_list d))%nat,
   (acc.2 + length (filter (λ v, filled v) (map_to_list d).*2))%nat).
Proof.
  unfold count_items. rewrite map_fold_foldr.
  induction (map_to_list d) as [|[k v] l IH]; simpl.
  - destruct acc. simpl. by rewrite !Nat.add_0_r.
  - rewrite IH. simpl. rewrite filter_cons.
    destruct (decide (filled v)) as [H|H]; unfold filled in H;
      destruct (truthy v && negb (str_blank v)); simpl in *; try done;
      change (list_fmap (string * value)%type value snd l) with (l.*2);
      f_equal; lia.
Qed.

Lemma assigned_cons out_key f fields form_data :
  assigned out_key (f :: fields) form_data =
  match submitted form_data f with
  | Some v => (out_key f, _sanitize_field v) :: assigned out_key fields form_data
  | None => assigned out_key fields form_data
  end.
Proof. unfold assigned. simpl. by destruct (submitted form_data f). Qed.

Lemma assigned_length out_key fields form_data :
  length (assigned out_key fields form_data) =
  length (filter (λ f, is_defined form_data f) fields).
Proof.
  induction fields as [|f fields IH]; [done|]. rewrite assigned_cons.
  destruct (submitted form_data f) as [v|] eqn:E.
  - rewrite filter_cons_True by (cbv beta; unfold is_defined; rewrite E; simpl; tauto).
    simpl. by rewrite IH.
  - by rewrite filter_cons_False by (cbv beta; unfold is_defined; rewrite E; simpl; tauto).
Qed.

Lemma assigned_filled out_key fields form_data :
  length (filter (λ v, filled v) (assigned out_key fields form_data).*2) =
  length (filter (λ f, is_nonempty form_data f) fields).
Proof.
  induction fields as [|f fields IH]; [done|]. rewrite assigned_cons.
  destruct (submitted form_data f) as [v|] eqn:E.
  - rewrite fmap_cons. simpl snd.
    destruct (filled (_sanitize_field v)) eqn:F.
    + rewrite filter_cons_True by (cbv beta; rewrite F; simpl; tauto).
      rewrite filter_cons_True by (cbv beta; unfold is_nonempty; rewrite E, F; simpl; tauto).
      simpl. by rewrite IH.
    + rewrite filter_cons_False by (cbv beta; rewrite F; simpl; tauto).
      by rewrite filter_cons_False by (cbv beta; unfold is_nonempty; rewrite E, F; simpl; tauto).
  - by rewrite filter_cons_False by (cbv beta; unfold is_nonempty; rewrite E; simpl; tauto).
Qed.

(** The counters after one section, in terms of its raw fields. *)
Lemma count_items_process acc out_key fields form_data :
  NoDup (out_key <$> fields) →
  count_items acc (process_fields out_key fields form_data) =
  ((acc.1 + length (filter (λ f, is_defined form_data f) fields))%nat,
   (acc.2 + length (filter (λ f, is_nonempty form_data f) fields))%nat).
Proof.
  intros Hnd. rewrite count_items_list.
  pose proof (process_fields_items out_key fields form_data Hnd) as Hp.
  f_equal; f_equal.
  - rewrite Hp. apply assigned_length.
  - rewrite Hp. apply assigned_filled.
Qed.

End Normalizer.

(** ** The document *)

Section Document.

Implicit Types form_data : gmap string value.
Implicit Types files : gmap string file_obj.

Lemma schema_NoDup sec out_key fields :
  (sec, out_key, fields) ∈ schema → NoDup (out_key <$> fields).
Proof.
  unfold schema. rewrite !elem_of_cons, elem_of_nil.
  intros H. repeat (destruct H as [[= -> -> ->]|H]; [by apply (bool_decide_unpack _); vm_compute|]).
  done.
Qed.

(** Every section of the table is assembled by its field loop. *)
Lemma structured_section form_data files sec out_key fields :
  (sec, out_key, fields) ∈ schema →
  structured form_data files !! sec =
  Some (VDict (process_fields out_key fields form_data)).
Proof.
  unfold schema. rewrite !elem_of_cons, elem_of_nil.
  intros H. unfold structured.
  repeat (destruct H as [[= -> -> ->]|H];
          [by destruct (nonempty files); simplify_map_eq|]).
  done.
Qed.



Lemma count_sections_structured form_data files :
  count_sections (structured form_data files) =
  (defined_count form_data, nonempty_count form_data).
Proof.
  unfold count_sections, sections_to_check, defined_count, nonempty_count,
    scored_fields. cbn [foldl].
  rewrite (structured_section _ _ "personal_information" id personal_fields),
    (structured_section _ _ "contact_information" id contact_fields),
    (structured_section _ _ "address" id address_fields),
    (structured_section _ _ "emergency_contact" clean_field emergency_fields),
    (structured_section _ _ "visit_information" id visit_fields)
    by (unfold schema; set_solver).
  rewrite !count_items_process by (by apply (bool_decide_unpack _); vm_compute).
  rewrite !filter_app, !length_app. cbn [fst snd]. f_equal; lia.
Qed.

Lemma score_structured form_data files :
  _calculate_completeness_score (structured form_data files) =
  completeness_score form_data.
Proof.
  unfold _calculate_completeness_score, completeness_score.
  by rewrite count_sections_structured.
Qed.

Lemma any_values_nonempty (d : gmap string value) :
  any_values d = true → truthy (VDict d) = true.
Proof.
  unfold any_values, truthy, nonempty. by destruct (map_to_list d).
Qed.


(** What the comprehension over [structured_data.items()] returns at a
    key. *)
Lemma convert_lookup processed_at form_data files k :
  k ≠ "processing_info" →
  convert_form_to_json processed_at form_data files !! k =
  match structured form_data files !! k with
  | Some v => if keep v then Some v else None
  | None => None
  end.
Proof.
  intros Hk. unfold convert_form_to_json. cbv zeta.
  rewrite map_lookup_filter, lookup_insert_ne by done.
  destruct (structured form_data files !! k) as [v|]; [|done]. simpl.
  destruct (keep v); by simplify_option_eq.
Qed.

Lemma convert_processing_info processed_at form_data files :
  ∃ info,
    convert_form_to_json processed_at form_data files !! "processing_info"
    = Some (VDict info)
    ∧ info !! "data_quality_score" = Some (completeness_score form_data)
    ∧ info !! "total_fields"
      = Some (VInt (Z.of_nat (total_fields (structured form_data files)))).
Proof.
  unfold convert_form_to_json. cbv zeta. eexists. split; [|split].
  - apply map_lookup_filter_Some. split; [apply lookup_insert_eq|].
    by vm_compute.
  - by rewrite lookup_insert_eq, score_structured.
  - by simplify_map_eq.
Qed.

End Document.


(** The statement of C7 fails: a field of whitespace only leaves its key in
    the document, bound to [None], when its section has another value. *)
Lemma null_placeholder_counterexample :
  ¬ (∀ processed_at form_data files d,
       convert_form_to_json processed_at form_data files
         !! "personal_information" = Some (VDict d) →
       d !! "first_name" ≠ Some VNone).
Proof.
  intros H.
  pose (form := <["first_name" := VStr (str_of "  ")]>
                  (<["last_name" := VStr (str_of "Doe")]> ∅) : gmap string value).
  apply (H [] form ∅ (process_fields id personal_fields form)); by vm_compute.
Qed.

(** C7, amended.  For every section of the table and every field mapped to
    it, the section assembled by [convert_form_to_json] has the field's
    output key exactly when the raw field is present with a truthy value, and
    binds it to the sanitised value, which is [None] for a value of
    whitespace or control characters only; the returned document holds the
    assembled section when one of its values is truthy, and no such key
    otherwise. *)
Theorem field_key_presence processed_at form_data files sec out_key fields f :
  (sec, out_key, fields) ∈ schema → f ∈ fields →
  let section := process_fields out_key fields form_data in
  section !! out_key f
  = match form_data !! f with
    | Some v => if truthy v then Some (_sanitize_field v) else None
    | None => None
    end
  ∧ convert_form_to_json processed_at form_data files !! sec
    = if any_values section then Some (VDict section) else None.
Proof.
  intros Hs Hf section. split.
  - unfold section. rewrite (process_fields_lookup _ _ _ _ (schema_NoDup _ _ _ Hs) Hf).
    unfold submitted. destruct (form_data !! f) as [v|]; [|done].
    by destruct (truthy v).
  - rewrite convert_lookup.
    + rewrite (structured_section _ _ _ _ _ Hs). fold section. unfold keep.
      destruct (any_values section) eqn:E; [|by rewrite andb_false_r].
      by rewrite (any_values_nonempty _ E).
    + intros ->. revert Hs. unfold schema. rewrite !elem_of_cons, elem_of_nil.
      intros H. by repeat (destruct H as [[= ]|H]).
Qed.

Lemma field_key_presence_witness :
  convert_form_to_json [] (<["first_name" := VStr (str_of "  ")]> ∅) ∅
    !! "personal_information" = None.
Proof.
  refine (proj2 (field_key_presence [] (<["first_name" := VStr (str_of "  ")]> ∅) ∅
            "personal_information" id personal_fields "first_name" _ _)).
  - unfold schema. apply elem_of_cons. by left.
  - unfold personal_fields. apply elem_of_cons. by left.
Defined.




(** ** Token codec *)

Section Token.

Variable mac : string → option value → option Z → string.
Variable isoformat : Z → pystr.
Variable fromisoformat : pystr → option datetime.

(** [fromisoformat] reads back what [isoformat] writes for a naive
    datetime. *)
Hypothesis fromisoformat_isoformat :
  ∀ t, fromisoformat (isoformat t) = Some {| micros := t; utcoffset := None |}.

Lemma generate_token_dumps secret now nonce pid cid :
  generate_token mac isoformat secret now nonce pid cid =
  dumps mac secret (get_timestamp now)
    (VDict (minted_claims isoformat now nonce pid cid)).
Proof. reflexivity. Qed.

(** The serializer accepts what it signed while the age of the signature is
    between 0 and [max_age]. *)
Lemma loads_dumps secret ts now max_age p :
  0 <= get_timestamp now - ts <= max_age →
  loads mac secret now max_age (dumps mac secret ts p) = Return p.
Proof.
  intros [H0 H1]. unfold loads, dumps. rewrite String.eqb_refl. simpl.
  destruct (Z.gtb_spec (get_timestamp now - ts) max_age); [lia|].
  destruct (Z.ltb_spec (get_timestamp now - ts) 0); [lia|]. done.
Qed.

Lemma loads_dumps_expired secret ts now max_age p :
  max_age < get_timestamp now - ts →
  loads mac secret now max_age (dumps mac secret ts p) = Raise SignatureExpired.
Proof.
  intros H. unfold loads, dumps. rewrite String.eqb_refl. simpl.
  destruct (Z.gtb_spec (get_timestamp now - ts) max_age); [done|lia].
Qed.

(** The second check on the claims [generate_token] signed at [t0]. *)
Lemma created_at_check_minted t0 now nonce pid cid :
  created_at_check fromisoformat now (VDict (minted_claims isoformat t0 nonce pid cid))
  = if now - t0 >? timedelta_hours 24 then Return VNone
    else Return (VDict (minted_claims isoformat t0 nonce pid cid)).
Proof.
  unfold created_at_check, subscript, minted_claims.
  rewrite lookup_insert_ne, lookup_insert_eq by done. simpl.
  rewrite fromisoformat_isoformat. reflexivity.
Qed.

Lemma get_timestamp_shift t n :
  0 <= n →
  0 <= get_timestamp (t + seconds n) - get_timestamp t
  ∧ n - 1 <= get_timestamp (t + seconds n) - get_timestamp t <= n.
Proof.
  unfold get_timestamp, seconds. intros Hn.
  Z.to_euclidean_division_equations. lia.
Qed.

Lemma get_timestamp_shift_nonneg t n :
  0 <= t → 0 <= n → get_timestamp (t + seconds n) - get_timestamp t = n.
Proof.
  unfold get_timestamp, seconds. intros Ht Hn.
  Z.to_euclidean_division_equations. lia.
Qed.

(** Verification of a minted token [n] seconds later, for [n] up to 23h59m:
    the claims come back. *)
Lemma validate_minted_fresh secret t0 n nonce pid cid :
  0 <= n <= 86340 →
  validate_token mac fromisoformat secret (t0 + seconds n)
    (generate_token mac isoformat secret t0 nonce pid cid)
  = Return (VDict (minted_claims isoformat t0 nonce pid cid)).
Proof.
  intros Hn. unfold validate_token. rewrite generate_token_dumps, loads_dumps.
  - simpl. rewrite created_at_check_minted.
    destruct (Z.gtb_spec (t0 + seconds n - t0) (timedelta_hours 24)) as [H|H];
      [|done].
    unfold seconds, timedelta_hours in H. lia.
  - pose proof (get_timestamp_shift t0 n). unfold token_expiry. lia.
Qed.

(** C2.  For every subject identifier [s] (non-empty or not) and every
    scope identifier [c], [validate_token] applied at the instant of minting
    to [generate_token s c] under the same secret returns a claims
    dictionary whose [patient_id] is [s] and whose [clinic_id] is [c]. *)
Theorem validate_generate_roundtrip secret now nonce (s c : pystr) :
  ∃ claims,
    validate_token mac fromisoformat secret now
      (generate_token mac isoformat secret now nonce (VStr s) (VStr c))
    = Return (VDict claims)
    ∧ claims !! "patient_id" = Some (VStr s)
    ∧ claims !! "clinic_id" = Some (VStr c).
Proof.
  exists (minted_claims isoformat now nonce (VStr s) (VStr c)). split; [|done].
  pose proof (validate_minted_fresh secret now 0 nonce (VStr s) (VStr c)) as H.
  unfold seconds in H. rewrite Z.mul_0_l, Z.add_0_r in H. apply H. lia.
Qed.

(** C3.  A token minted at [T] is accepted, with its claims, when verified
    23h59m later and answered with [None] when verified 24h and one second
    later.  The two age checks use the same span, [token_expiry] seconds
    being [timedelta(hours=24)]; at 24h and one second the check of
    [created_at] rejects on its own, and so does the age check of the
    signature for a clock reading [T] at or after the epoch. *)
Theorem token_expiry_window secret T nonce pid cid :
  let t := generate_token mac isoformat secret T nonce pid cid in
  let claims := VDict (minted_claims isoformat T nonce pid cid) in
  validate_token mac fromisoformat secret (T + seconds 86340) t = Return claims
  ∧ validate_token mac fromisoformat secret (T + seconds 86401) t = Return VNone
  ∧ seconds token_expiry = timedelta_hours 24
  ∧ created_at_check fromisoformat (T + seconds 86401) claims = Return VNone
  ∧ (0 <= T →
     loads mac secret (T + seconds 86401) token_expiry t = Raise SignatureExpired).
Proof.
  intros t claims.
  assert (created_at_check fromisoformat (T + seconds 86401) claims = Return VNone)
    as Hsecond.
  { unfold claims. rewrite created_at_check_minted.
    destruct (Z.gtb_spec (T + seconds 86401 - T) (timedelta_hours 24)) as [H|H];
      [done|].
    unfold seconds, timedelta_hours in H. lia. }
  split; [apply validate_minted_fresh; lia|].
  split; [|split; [done|split; [done|]]].
  - unfold validate_token, t. rewrite generate_token_dumps.
    pose proof (get_timestamp_shift T 86401) as Hs.
    destruct (Z_le_gt_dec (get_timestamp (T + seconds 86401) - get_timestamp T)
                token_expiry) as [Hle|Hgt].
    + rewrite loads_dumps by (unfold token_expiry in *; lia). simpl.
      fold claims. by rewrite Hsecond.
    + rewrite loads_dumps_expired by lia. done.
  - intros HT. unfold t. rewrite generate_token_dumps.
    apply loads_dumps_expired. rewrite get_timestamp_shift_nonneg by lia.
    unfold token_expiry. lia.
Qed.

End Token.

(** C4 at the failing input: a token that carries a valid signature over a
    payload without a [created_at] key makes [validate_token] raise
    [KeyError], and over a payload that is not a dictionary [TypeError];
    neither is among the exceptions its handler turns into [None]. *)
Theorem validate_token_raises mac fromisoformat secret now :
  validate_token mac fromisoformat secret now
    (dumps mac secret (get_timestamp now) (VDict ∅)) = Raise KeyError
  ∧ validate_token mac fromisoformat secret now
      (dumps mac secret (get_timestamp now) (VList [])) = Raise TypeError.
Proof.
  unfold validate_token.
  rewrite !loads_dumps by (rewrite Z.sub_diag; unfold token_expiry; lia).
  done.
Qed.

Lemma sm_fromisoformat_isoformat t :
  sm_fromisoformat (sm_isoformat t) = Some {| micros := t; utcoffset := None |}.
Proof.
  unfold sm_fromisoformat, sm_isoformat. do 2 f_equal.
  destruct (Z.ltb_spec t 0); simpl; lia.
Qed.

Lemma validate_generate_roundtrip_witness :
  ∃ claims,
    validate_token sm_mac sm_fromisoformat "k" 1700000000000000
      (generate_token sm_mac sm_isoformat "k" 1700000000000000 (str_of "6f1a")
         (VStr (str_of "pt-123")) (VStr (str_of "default")))
    = Return (VDict claims)
    ∧ claims !! "patient_id" = Some (VStr (str_of "pt-123"))
    ∧ claims !! "clinic_id" = Some (VStr (str_of "default")).
Proof.
  apply (validate_generate_roundtrip sm_mac sm_isoformat sm_fromisoformat
           sm_fromisoformat_isoformat).
Defined.

Lemma token_expiry_window_witness :
  validate_token sm_mac sm_fromisoformat "k" (1700000000000000 + seconds 86401)
    (generate_token sm_mac sm_isoformat "k" 1700000000000000 (str_of "6f1a")
       (VStr (str_of "pt-123")) (VStr (str_of "default")))
  = Return VNone
  ∧ loads sm_mac "k" (1700000000000000 + seconds 86401) token_expiry
      (generate_token sm_mac sm_isoformat "k" 1700000000000000 (str_of "6f1a")
         (VStr (str_of "pt-123")) (VStr (str_of "default")))
    = Raise SignatureExpired.
Proof.
  pose proof (token_expiry_window sm_mac sm_isoformat sm_fromisoformat
                sm_fromisoformat_isoformat "k" 1700000000000000 (str_of "6f1a")
                (VStr (str_of "pt-123")) (VStr (str_of "default")))
    as (_ & H2 & _ & _ & H5).
  split; [exact H2|]. apply H5. lia.
Defined.

(** ** Minting and the routes *)

(** The statement of C9 fails: [generate_token] signs a token for an empty
    subject identifier, and the serializer accepts it. *)
Lemma mint_empty_subject_counterexample :
  ¬ (∀ mac isoformat secret now nonce pid cid claims,
       truthy pid = false →
       loads mac secret now token_expiry
         (generate_token mac isoformat secret now nonce pid cid)
       ≠ Return claims).
Proof.
  intros H.
  apply (H sm_mac sm_isoformat "k"%string 0 [] (VStr []) (VStr (str_of "default"))
           (VDict (minted_claims sm_isoformat 0 [] (VStr []) (VStr (str_of "default")))));
    reflexivity.
Qed.

Section Minting.

Variable mac : string → option value → option Z → string.
Variable isoformat : Z → pystr.
Variable fromisoformat : pystr → option datetime.
Hypothesis fromisoformat_isoformat :
  ∀ t, fromisoformat (isoformat t) = Some {| micros := t; utcoffset := None |}.

(** C9, amended.  [generate_token] makes no check of the subject
    identifier: for a subject that is [None] or empty it returns a signed
    token that [validate_token] accepts and whose [patient_id] is that
    subject.  The check is made by the route: [generate_pediatric_link]
    answers with the error [patient_id is required], and mints nothing, when
    [patient_id] is absent from the request or falsy. *)
Theorem mint_leaves_subject_check_to_routes :
  (∀ secret now nonce pid cid,
     truthy pid = false →
     ∃ claims,
       validate_token mac fromisoformat secret now
         (generate_token mac isoformat secret now nonce pid cid)
       = Return (VDict claims)
       ∧ claims !! "patient_id" = Some pid)
  ∧ (∀ secret now nonce data,
       truthy (dict_get data "patient_id" VNone) = false →
       App.generate_pediatric_link mac isoformat secret now nonce data
       = App.BadRequest "patient_id is required").
Proof.
  split.
  - intros secret now nonce pid cid _.
    exists (minted_claims isoformat now nonce pid cid). split; [|done].
    pose proof (validate_minted_fresh mac isoformat fromisoformat
                  fromisoformat_isoformat secret now 0 nonce pid cid) as H.
    unfold seconds in H. rewrite Z.mul_0_l, Z.add_0_r in H. apply H. lia.
  - intros secret now nonce data H. unfold App.generate_pediatric_link.
    cbv zeta. by rewrite H.
Qed.

End Minting.

Lemma mint_leaves_subject_check_to_routes_witness :
  (∃ claims,
     validate_token sm_mac sm_fromisoformat "k" 0
       (generate_token sm_mac sm_isoformat "k" 0 [] (VStr []) (VStr (str_of "default")))
     = Return (VDict claims)
     ∧ claims !! "patient_id" = Some (VStr []))
  ∧ App.generate_pediatric_link sm_mac sm_isoformat "k" 0 []
      (<["patient_id" := VStr []]> ∅)
    = App.BadRequest "patient_id is required".
Proof.
  pose proof (mint_leaves_subject_check_to_routes sm_mac sm_isoformat
                sm_fromisoformat sm_fromisoformat_isoformat) as [H1 H2].
  split.
  - apply H1. reflexivity.
  - apply H2. reflexivity.
Defined.

(** ** Multi-valued fields *)

Lemma pediatric_data_fmap (form_data : gmap string value) :
  App.pediatric_data form_data = App.collapse <$> form_data.
Proof.
  unfold App.pediatric_data.
  apply (map_fold_weak_ind (λ r m, r = App.collapse <$> m)).
  - by rewrite fmap_empty.
  - intros i x m r _ ->. by rewrite fmap_insert.
Qed.

(** C6.  A raw field submitted as a list of strings is, in the data
    [submit_pediatric_intake] builds, the bare string when the list has
    exactly one element and the same ordered list when it has more than
    one; the two checkbox groups of the package, [child_conditions] and
    [family_conditions], carry exactly that value. *)
Theorem multi_value_collapse (form_data : gmap string value) field
    (values : list pystr) :
  form_data !! field = Some (VList (VStr <$> values)) →
  (∀ s, values = [s] → App.pediatric_data form_data !! field = Some (VStr s))
  ∧ ((1 < length values)%nat →
     App.pediatric_data form_data !! field = Some (VList (VStr <$> values)))
  ∧ (field = "child_medical_history" →
     App.medical_history (App.pediatric_data form_data) !! "child_conditions"
     = App.pediatric_data form_data !! field)
  ∧ (field = "family_medical_history" →
     App.medical_history (App.pediatric_data form_data) !! "family_conditions"
     = App.pediatric_data form_data !! field).
Proof.
  intros Hf. rewrite pediatric_data_fmap, lookup_fmap, Hf. simpl.
  split; [by intros s ->|]. split.
  - intros Hlen. unfold App.collapse. rewrite length_fmap.
    destruct (Nat.eqb_spec (length values) 1); [lia|done].
  - unfold App.medical_history, dict_get. split; intros ->.
    + rewrite lookup_insert_ne, lookup_insert_eq by done.
      by rewrite lookup_fmap, Hf.
    + rewrite lookup_insert_eq. by rewrite lookup_fmap, Hf.
Qed.

Lemma multi_value_collapse_witness :
  App.pediatric_data
    (<["child_medical_history" := VList [VStr (str_of "asthma")]]>
     (<["family_medical_history" := VList [VStr (str_of "a"); VStr (str_of "b")]]> ∅))
    !! "child_medical_history" = Some (VStr (str_of "asthma")).
Proof.
  refine (proj1 (multi_value_collapse _ "child_medical_history" [str_of "asthma"] _)
            (str_of "asthma") eq_refl).
  reflexivity.
Defined.

(** ** Phone numbers *)

Section PhoneFacts.

Variable is_digit : codepoint → bool.



End PhoneFacts.


(** ** Sanitisation is not idempotent *)




(** ** What [validate_token] accepts, rejects and lets escape *)

Section Validation.

Variable mac : string → option value → option Z → string.
Variable isoformat : Z → pystr.
Variable fromisoformat : pystr → option datetime.

(** A token that does not carry the serializer's signature is answered
    with [None], whatever its segments hold. *)
Theorem validate_token_unsigned secret now t :
  ¬ signed_by mac secret t →
  validate_token mac fromisoformat secret now t = Return VNone.
Proof.
  intros Hs. unfold validate_token, loads. destruct t as [raw|p ts sig]; [done|].
  simpl in Hs. destruct (String.eqb_spec sig (mac secret p ts)); [done|]. done.
Qed.

Lemma loads_Return secret now max_age t p :
  loads mac secret now max_age t = Return p →
  ∃ ts, t = Framed (Some p) (Some ts) (mac secret (Some p) (Some ts))
        ∧ 0 <= get_timestamp now - ts <= max_age.
Proof.
  unfold loads. destruct t as [raw|q ts sig]; [done|].
  destruct (String.eqb_spec sig (mac secret q ts)) as [->|]; [|done]. simpl.
  destruct ts as [ts|]; [|done].
  destruct (Z.gtb_spec (get_timestamp now - ts) max_age); [done|].
  destruct (Z.ltb_spec (get_timestamp now - ts) 0); [done|].
  destruct q as [q|]; [|done]. intros [= ->]. exists ts. split; [done|lia].
Qed.

Lemma loads_Raise secret now max_age t e :
  loads mac secret now max_age t = Raise e → handled e = true.
Proof.
  unfold loads. destruct t as [raw|q ts sig]; [by intros [= <-]|].
  destruct (negb _); [by intros [= <-]|].
  destruct ts as [ts|]; [|by intros [= <-]].
  destruct (_ >? _); [by intros [= <-]|].
  destruct (_ <? _); [by intros [= <-]|].
  destruct q; [done|by intros [= <-]].
Qed.

(** Whatever [validate_token] returns other than [None] is the payload of a
    token that carries the serializer's signature over it, whose signature is
    at most [token_expiry] seconds old and not from the future, and whose
    [created_at] claim is a naive datetime at most 24 hours before now. *)
Theorem validate_token_accepts_only secret now t v :
  validate_token mac fromisoformat secret now t = Return v → v ≠ VNone →
  ∃ ts claims s created,
    t = Framed (Some v) (Some ts) (mac secret (Some v) (Some ts))
    ∧ 0 <= get_timestamp now - ts <= token_expiry
    ∧ v = VDict claims
    ∧ claims !! "created_at" = Some (VStr s)
    ∧ fromisoformat s = Some {| micros := created; utcoffset := None |}
    ∧ now - created <= timedelta_hours 24.
Proof.
  unfold validate_token. intros H Hv.
  destruct (loads mac secret now token_expiry t) as [p|e] eqn:E.
  - apply loads_Return in E as (ts & -> & Hage). simpl in H.
    unfold created_at_check, subscript in H.
    destruct p as [| | | | |l|d]; try done.
    destruct (d !! "created_at") as [c|] eqn:Ec; [|done]. simpl in H.
    unfold datetime_fromisoformat in H. destruct c as [| | | |s| |]; try done.
    destruct (fromisoformat s) as [[created off]|] eqn:Ef; [|by injection H as <-].
    simpl in H. unfold utcnow_minus in H. simpl in H.
    destruct off; [done|]. simpl in H.
    destruct (Z.gtb_spec (now - created) (timedelta_hours 24));
      [by injection H as <-|].
    injection H as <-. exists ts, d, s, created. done.
  - simpl in H. rewrite (loads_Raise _ _ _ _ _ E) in H. by injection H as <-.
Qed.

(** An exception escapes [validate_token] only as [KeyError] or
    [TypeError], and only for a token that carries the serializer's signature
    and whose signature is neither expired nor from the future. *)
Theorem validate_token_escapes secret now t e :
  validate_token mac fromisoformat secret now t = Raise e →
  (e = KeyError ∨ e = TypeError)
  ∧ signed_by mac secret t
  ∧ ∃ age, signature_age now t = Some age ∧ 0 <= age <= token_expiry.
Proof.
  unfold validate_token. intros H.
  destruct (loads mac secret now token_expiry t) as [p|e'] eqn:E.
  - apply loads_Return in E as (ts & -> & Hage). simpl. split; [|eauto].
    simpl in H. destruct (created_at_check fromisoformat now p) as [|e'] eqn:Ec;
      [done|].
    simpl in H. destruct e'; simpl in H; try done; injection H as <-; auto.
  - simpl in H. by rewrite (loads_Raise _ _ _ _ _ E) in H.
Qed.

Hypothesis fromisoformat_isoformat :
  ∀ t, fromisoformat (isoformat t) = Some {| micros := t; utcoffset := None |}.

(** The whole life of a minted token, for clock readings at or after the
    epoch: verification answers with the claims from the second of minting
    until 24 hours after the instant of minting, and with [None] before
    (a clock set back) and after. *)
Theorem minted_token_lifetime secret t0 now nonce pid cid :
  0 <= t0 → 0 <= now →
  validate_token mac fromisoformat secret now
    (generate_token mac isoformat secret t0 nonce pid cid)
  = if (get_timestamp now <? get_timestamp t0)
       || (now - t0 >? timedelta_hours 24)
    then Return VNone
    else Return (VDict (minted_claims isoformat t0 nonce pid cid)).
Proof.
  intros H0 Hnow. unfold validate_token. rewrite generate_token_dumps.
  destruct (Z.ltb_spec (get_timestamp now) (get_timestamp t0)) as [Hlt|Hge].
  - simpl. unfold loads, dumps. rewrite String.eqb_refl. simpl.
    destruct (_ >? _); [done|].
    destruct (Z.ltb_spec (get_timestamp now - get_timestamp t0) 0); [done|lia].
  - simpl orb.
    destruct (Z_le_gt_dec (get_timestamp now - get_timestamp t0) token_expiry)
      as [Hle|Hgt].
    + rewrite loads_dumps by lia. simpl.
      rewrite (created_at_check_minted isoformat fromisoformat fromisoformat_isoformat).
      by destruct (_ >? _).
    + rewrite loads_dumps_expired by lia. simpl.
      destruct (Z.gtb_spec (now - t0) (timedelta_hours 24)) as [|Hn]; [done|].
      exfalso. unfold get_timestamp, token_expiry, timedelta_hours in *.
      Z.to_euclidean_division_equations. lia.
Qed.

(** The pediatric link route and the codec compose: for a request with a
    truthy [patient_id] the route answers with a link whose token verifies,
    at the same clock reading, to claims that carry this [patient_id] and
    the [clinic_id] of the request, or [houston_pediatric] when the request
    has none. *)
Theorem pediatric_link_verifies secret now nonce data :
  truthy (dict_get data "patient_id" VNone) = true →
  ∃ t pid cid claims,
    App.generate_pediatric_link mac isoformat secret now nonce data
    = App.Link t pid cid
    ∧ data !! "patient_id" = Some pid
    ∧ cid = default (VStr (str_of "houston_pediatric")) (data !! "clinic_id")
    ∧ validate_token mac fromisoformat secret now t = Return (VDict claims)
    ∧ claims !! "patient_id" = Some pid
    ∧ claims !! "clinic_id" = Some cid.
Proof.
  intros H. unfold App.generate_pediatric_link. cbv zeta. rewrite H. simpl.
  unfold dict_get in *. destruct (data !! "patient_id") as [pid|] eqn:E; [|done].
  eexists _, pid, _, (minted_claims isoformat now nonce pid _).
  split; [done|]. split; [done|]. split; [by destruct (data !! "clinic_id")|].
  split; [|done].
  pose proof (validate_minted_fresh mac isoformat fromisoformat
                fromisoformat_isoformat secret now 0 nonce pid
                (default (VStr (str_of "houston_pediatric")) (data !! "clinic_id")))
    as Hv.
  unfold seconds in Hv. rewrite Z.mul_0_l, Z.add_0_r in Hv.
  destruct (data !! "clinic_id"); apply Hv; lia.
Qed.

End Validation.

Lemma validate_token_unsigned_witness :
  validate_token sm_mac sm_fromisoformat "k" 0
    (Framed (Some (VDict ∅)) (Some 0) "forged") = Return VNone.
Proof.
  apply (validate_token_unsigned sm_mac sm_fromisoformat "k" 0
           (Framed (Some (VDict ∅)) (Some 0) "forged")).
  simpl. discriminate.
Defined.

Lemma validate_token_accepts_only_witness :
  ∃ ts claims s created,
    generate_token sm_mac sm_isoformat "k" 5000000 [] (VStr (str_of "pt-1")) VNone
    = Framed (Some (VDict (minted_claims sm_isoformat 5000000 []
                             (VStr (str_of "pt-1")) VNone)))
        (Some ts)
        (sm_mac "k" (Some (VDict (minted_claims sm_isoformat 5000000 []
                                    (VStr (str_of "pt-1")) VNone))) (Some ts))
    ∧ 0 <= get_timestamp 6000000 - ts <= token_expiry
    ∧ VDict (minted_claims sm_isoformat 5000000 [] (VStr (str_of "pt-1")) VNone)
      = VDict claims
    ∧ claims !! "created_at" = Some (VStr s)
    ∧ sm_fromisoformat s = Some {| micros := created; utcoffset := None |}
    ∧ 6000000 - created <= timedelta_hours 24.
Proof.
  apply (validate_token_accepts_only sm_mac sm_fromisoformat "k" 6000000).
  - reflexivity.
  - discriminate.
Defined.

Lemma validate_token_escapes_witness :
  (KeyError = KeyError ∨ KeyError = TypeError)
  ∧ signed_by sm_mac "k" (dumps sm_mac "k" 0 (VDict ∅))
  ∧ ∃ age, signature_age 0 (dumps sm_mac "k" 0 (VDict ∅)) = Some age
           ∧ 0 <= age <= token_expiry.
Proof.
  apply (validate_token_escapes sm_mac sm_fromisoformat "k" 0
           (dumps sm_mac "k" 0 (VDict ∅)) KeyError).
  reflexivity.
Defined.

Lemma minted_token_lifetime_witness :
  validate_token sm_mac sm_fromisoformat "k" 4000000
    (generate_token sm_mac sm_isoformat "k" 5000000 [] (VStr (str_of "pt-1")) VNone)
  = Return VNone.
Proof.
  apply (minted_token_lifetime sm_mac sm_isoformat sm_fromisoformat
           sm_fromisoformat_isoformat "k" 5000000 4000000 []
           (VStr (str_of "pt-1")) VNone); lia.
Defined.

Lemma pediatric_link_verifies_witness :
  ∃ t pid cid claims,
    App.generate_pediatric_link sm_mac sm_isoformat "k" 0 []
      (<["patient_id" := VStr (str_of "pt-1")]> ∅)
    = App.Link t pid cid
    ∧ (<["patient_id" := VStr (str_of "pt-1")]> ∅ : gmap string value)
        !! "patient_id" = Some pid
    ∧ cid = default (VStr (str_of "houston_pediatric"))
              ((<["patient_id" := VStr (str_of "pt-1")]> ∅ : gmap string value)
                 !! "clinic_id")
    ∧ validate_token sm_mac sm_fromisoformat "k" 0 t = Return (VDict claims)
    ∧ claims !! "patient_id" = Some pid
    ∧ claims !! "clinic_id" = Some cid.
Proof.
  apply (pediatric_link_verifies sm_mac sm_isoformat sm_fromisoformat
           sm_fromisoformat_isoformat "k" 0 []
           (<["patient_id" := VStr (str_of "pt-1")]> ∅)).
  reflexivity.
Defined.

(** ** More on sanitisation *)

Lemma lstrip_sublist (s : list N) : lstrip s `sublist_of` s.
Proof.
  destruct (lstrip_suffix s) as [pre E]. rewrite E at 2.
  by apply sublist_inserts_l.
Qed.

Lemma sublist_reverse_mono {A} (l k : list A) :
  l `sublist_of` k → reverse l `sublist_of` reverse k.
Proof.
  induction 1 as [|x l k _ IH|x l k _ IH]; [done| |].
  - rewrite !reverse_cons. by apply sublist_app.
  - rewrite reverse_cons. by apply sublist_inserts_r.
Qed.

Lemma strip_sublist (s : list N) : strip s `sublist_of` s.
Proof.
  unfold strip, rstrip. etrans; [|apply lstrip_sublist].
  rewrite <- (reverse_involutive (lstrip s)) at 2.
  apply sublist_reverse_mono, lstrip_sublist.
Qed.

(** [_sanitize_field] returns [None] or a truthy value, never an empty
    string or list.  From a string it returns only characters of the input,
    in their order, none of them below 32; any other truthy value it returns
    unchanged. *)
Theorem sanitize_field_result (v : value) :
  (_sanitize_field v = VNone ∨ truthy (_sanitize_field v) = true)
  ∧ (∀ x t, v = VStr x → _sanitize_field v = VStr t →
       t `sublist_of` x ∧ Forall printable t)
  ∧ ((∀ x, v ≠ VStr x) → truthy v = true → _sanitize_field v = v).
Proof.
  split; [|split].
  - unfold _sanitize_field. destruct (truthy v) eqn:E; simpl; [|by left].
    destruct v; auto.
    destruct (filter _ (strip s)); simpl; auto.
  - intros x t -> H. rewrite sanitize_str in H.
    destruct (filter printable (strip x)) as [|c r] eqn:E; [done|].
    injection H as <-. rewrite <- E. split.
    + etrans; [apply sublist_filter|apply strip_sublist].
    + apply Forall_forall. intros a Ha. by apply list_elem_of_filter in Ha as [? _].
  - intros Hn Ht. unfold _sanitize_field. rewrite Ht. simpl.
    destruct v; try done. by destruct (Hn s).
Qed.

Lemma sanitize_field_result_witness :
  _sanitize_field (VInt 7) = VInt 7.
Proof.
  apply (proj2 (proj2 (sanitize_field_result (VInt 7)))); [discriminate|reflexivity].
Defined.

(** ** More on the document *)

Section DocumentFacts.

Implicit Types form_data : gmap string value.
Implicit Types files : gmap string file_obj.

Lemma process_fields_ext out_key fields form_data form_data' :
  (∀ f, f ∈ fields → form_data !! f = form_data' !! f) →
  process_fields out_key fields form_data = process_fields out_key fields form_data'.
Proof.
  induction fields as [|f fields IH] using rev_ind; [done|].
  intros H. rewrite !process_fields_snoc. unfold submitted.
  rewrite <- (H f) by (apply elem_of_app; right; by left).
  rewrite IH; [done|]. intros g Hg. apply H, elem_of_app. by left.
Qed.

(** Fields outside the seven field lists have no effect: two submissions
    that agree on the listed fields are converted to the same document. *)
Theorem convert_ignores_unlisted_fields processed_at form_data form_data' files :
  (∀ f, f ∈ all_fields → form_data !! f = form_data' !! f) →
  convert_form_to_json processed_at form_data files
  = convert_form_to_json processed_at form_data' files.
Proof.
  intros H.
  assert (structured form_data files = structured form_data' files) as Hs.
  { unfold structured.
    rewrite (process_fields_ext id personal_fields form_data form_data'),
      (process_fields_ext id contact_fields form_data form_data'),
      (process_fields_ext id address_fields form_data form_data'),
      (process_fields_ext clean_field emergency_fields form_data form_data'),
      (process_fields_ext id insurance_fields form_data form_data'),
      (process_fields_ext id medical_fields form_data form_data'),
      (process_fields_ext id visit_fields form_data form_data'); [done|..];
      intros f Hf; apply H; unfold all_fields; rewrite !elem_of_app; auto 10. }
  unfold convert_form_to_json. by rewrite Hs.
Qed.

Lemma convert_ignores_unlisted_fields_witness :
  convert_form_to_json []
    (<["csrf_token" := VStr (str_of "x")]> (<["phone" := VStr (str_of "5")]> ∅)) ∅
  = convert_form_to_json [] (<["phone" := VStr (str_of "5")]> ∅) ∅.
Proof.
  apply convert_ignores_unlisted_fields. intros f Hf.
  apply lookup_insert_ne. intros <-. revert Hf. by apply (bool_decide_unpack _).
Defined.

Lemma process_files_fold files :
  map_fold (λ field_name f acc,
              if truthy (VStr (filename f))
              then <[field_name :=
                       VDict (<["filename" := VStr (filename f)]>
                              (<["content_type" := VStr (content_type f)]>
                               (<["size" := VInt (content_size f)]> ∅)))]> acc
              else acc) ∅ files
  = named_uploads files.
Proof.
  unfold named_uploads.
  apply (map_fold_weak_ind (λ r m, r = omap _ m)).
  - by rewrite omap_empty.
  - intros k f m r Hk ->. rewrite omap_insert.
    destruct (truthy (VStr (filename f))); [done|].
    rewrite delete_id; [done|]. by rewrite lookup_omap, Hk.
Qed.

Lemma nonempty_false {A} (d : gmap string A) : nonempty d = false ↔ d = ∅.
Proof.
  unfold nonempty. split.
  - destruct (map_to_list d) eqn:E; [|done]. intros _.
    by apply map_to_list_empty_iff.
  - intros ->. by rewrite map_to_list_empty.
Qed.

(** The summary of the uploads has an entry for each upload with a
    non-empty file name and for no other, holding the file name, the content
    type and the size; it is [None] when no upload has a file name. *)
Theorem process_files_entries files :
  (_process_files files = VNone ↔ ∀ k f, files !! k = Some f → filename f = [])
  ∧ (∀ d, _process_files files = VDict d →
       ∀ k, d !! k = match files !! k with
                     | Some f => if truthy (VStr (filename f))
                                 then Some (file_entry f) else None
                     | None => None
                     end).
Proof.
  unfold _process_files. rewrite process_files_fold. cbv zeta. simpl truthy.
  split.
  - destruct (nonempty (named_uploads files)) eqn:E.
    + split; [done|]. intros H. exfalso.
      assert (named_uploads files = ∅) as He; [|by rewrite He in E].
      apply map_eq. intros k. unfold named_uploads.
      rewrite lookup_omap, lookup_empty.
      destruct (files !! k) as [f|] eqn:Ek; [|done]. simpl.
      by rewrite (H k f Ek).
    + split; [|done]. intros _ k f Hk. apply nonempty_false in E.
      assert (named_uploads files !! k = None) as Hn by (by rewrite E).
      unfold named_uploads in Hn. rewrite lookup_omap, Hk in Hn. simpl in Hn.
      by destruct (filename f).
  - intros d Hd k. destruct (nonempty (named_uploads files)); [|done].
    injection Hd as <-. unfold named_uploads. rewrite lookup_omap.
    by destruct (files !! k).
Qed.

Lemma process_files_entries_witness :
  ∀ k, (<["scan" := VDict (<["filename" := VStr (str_of "a.pdf")]>
                     (<["content_type" := VStr (str_of "application/pdf")]>
                      (<["size" := VInt 3]> ∅)))]> ∅ : gmap string value) !! k
       = match (<["scan" := {| filename := str_of "a.pdf";
                               content_type := str_of "application/pdf";
                               content_size := 3 |}]>
                (<["blank" := {| filename := []; content_type := [];
                                 content_size := 0 |}]> ∅) : gmap string file_obj)
               !! k with
         | Some f => if truthy (VStr (filename f)) then Some (file_entry f) else None
         | None => None
         end.
Proof.
  apply (proj2 (process_files_entries _)). reflexivity.
Defined.

End DocumentFacts.

Section DocumentKeys.

Implicit Types form_data : gmap string value.
Implicit Types files : gmap string file_obj.

Lemma process_files_named files :
  _process_files files
  = if nonempty (named_uploads files) then VDict (named_uploads files) else VNone.
Proof. unfold _process_files. by rewrite process_files_fold. Qed.

Lemma nonempty_named_uploads files :
  nonempty (named_uploads files) = true → nonempty files = true.
Proof.
  destruct (nonempty files) eqn:E; [done|]. apply nonempty_false in E as ->.
  unfold named_uploads. by rewrite omap_empty.
Qed.

Lemma file_entry_truthy (f : file_obj) : truthy (file_entry f) = true.
Proof. by vm_compute. Qed.

Lemma named_uploads_any files :
  nonempty (named_uploads files) = true → any_values (named_uploads files) = true.
Proof.
  unfold nonempty, any_values.
  destruct (map_to_list (named_uploads files)) as [|[k v] l] eqn:E; [done|].
  intros _. assert (named_uploads files !! k = Some v) as Hk.
  { apply elem_of_map_to_list. rewrite E. by left. }
  unfold named_uploads in Hk. rewrite lookup_omap in Hk.
  destruct (files !! k) as [f|]; [|done]. simpl in Hk.
  destruct (filename f); [done|]. injection Hk as <-.
  rewrite fmap_cons. cbn [existsb snd]. apply orb_true_iff. left. by vm_compute.
Qed.

Lemma structured_uploaded form_data files :
  structured form_data files !! "uploaded_documents"
  = if nonempty files then Some (_process_files files) else None.
Proof.
  unfold structured. destruct (nonempty files); by simplify_map_eq.
Qed.

Lemma structured_dom form_data files k :
  is_Some (structured form_data files !! k) → k ∈ document_keys.
Proof.
  unfold structured, document_keys. intros H.
  destruct (nonempty files).
  - rewrite lookup_insert_is_Some' in H. destruct H as [<-|H]; [set_solver|].
    repeat (rewrite lookup_insert_is_Some' in H; destruct H as [<-|H]; [set_solver|]).
    rewrite lookup_empty in H. by destruct H.
  - repeat (rewrite lookup_insert_is_Some' in H; destruct H as [<-|H]; [set_solver|]).
    rewrite lookup_empty in H. by destruct H.
Qed.

(** A returned document has no key besides the seven sections,
    [uploaded_documents] and [processing_info]; it always has
    [processing_info]; and it has [uploaded_documents], holding the summary of
    the uploads, exactly when some upload has a non-empty file name. *)
Theorem document_key_set processed_at form_data files :
  let doc := convert_form_to_json processed_at form_data files in
  dom doc ⊆ document_keys
  ∧ "processing_info" ∈ dom doc
  ∧ doc !! "uploaded_documents"
    = if nonempty (named_uploads files) then Some (VDict (named_uploads files))
      else None.
Proof.
  intros doc. split; [|split].
  - intros k Hk. apply elem_of_dom in Hk.
    destruct (decide (k = "processing_info")) as [->|Hne];
      [unfold document_keys; set_solver|].
    unfold doc in Hk. rewrite convert_lookup in Hk by done.
    apply (structured_dom form_data files).
    destruct (structured form_data files !! k); [done|by destruct Hk].
  - apply elem_of_dom. unfold doc.
    by destruct (convert_processing_info processed_at form_data files)
      as (i & -> & _).
  - unfold doc. rewrite convert_lookup, structured_uploaded by done.
    rewrite process_files_named.
    destruct (nonempty (named_uploads files)) eqn:E.
    + rewrite (nonempty_named_uploads _ E). unfold keep. simpl truthy.
      by rewrite E, (named_uploads_any _ E).
    + by destruct (nonempty files).
Qed.

End DocumentKeys.

(** ** Rounding and the range of the score *)

Lemma round_half_even_range (q : Q) (lo hi : Z) :
  (inject_Z lo <= q)%Q → (q <= inject_Z hi)%Q →
  lo <= round_half_even q <= hi.
Proof.
  intros Hlo Hhi. unfold round_half_even.
  pose proof (Qfloor_le q) as H1. pose proof (Qlt_floor q) as H2.
  assert (lo <= Qfloor q) as Hf.
  { rewrite <- (Qfloor_Z lo). by apply Qfloor_resp_le. }
  assert (Qfloor q <= hi) as Hf'.
  { rewrite <- (Qfloor_Z hi). by apply Qfloor_resp_le. }
  assert ((1 # 2 <= q - inject_Z (Qfloor q))%Q → Qfloor q + 1 <= hi) as Hup.
  { intros Hh. assert (inject_Z (Qfloor q) < inject_Z hi)%Q as Hlt by lra.
    rewrite <- Zlt_Qlt in Hlt. lia. }
  destruct (Qcompare_spec (q - inject_Z (Qfloor q)) (1 # 2)) as [E|E|E].
  - destruct (Z.even (Qfloor q)); [lia|]. split; [lia|]. apply Hup. lra.
  - lia.
  - split; [lia|]. apply Hup. lra.
Qed.

Lemma round2_range (q : Q) : (0 <= q)%Q → (q <= 100)%Q →
  (0 <= round2 q)%Q ∧ (round2 q <= 100)%Q.
Proof.
  intros H0 H1. unfold round2. rewrite Qred_correct.
  destruct (round_half_even_range (q * 100) 0 10000) as [Ha Hb];
    [change (inject_Z 0) with 0%Q; lra|change (inject_Z 10000) with 10000%Q; lra|].
  rewrite Zle_Qle in Ha, Hb.
  change (inject_Z 0) with 0%Q in Ha. change (inject_Z 10000) with 10000%Q in Hb.
  split.
  - apply Qle_shift_div_l; [reflexivity|]. lra.
  - apply Qle_shift_div_r; [reflexivity|]. lra.
Qed.

Lemma round2_comp (p q : Q) : (p == q)%Q → round2 p = round2 q.
Proof.
  intros E. unfold round2. apply Qred_complete.
  assert (round_half_even (p * 100) = round_half_even (q * 100)) as ->; [|reflexivity].
  unfold round_half_even.
  assert (Qfloor (p * 100) = Qfloor (q * 100)) as Ef by (by rewrite E).
  rewrite Ef.
  assert (Qcompare (p * 100 - inject_Z (Qfloor (q * 100))) (1 # 2)
          = Qcompare (q * 100 - inject_Z (Qfloor (q * 100))) (1 # 2)) as ->;
    [|done].
  by rewrite E.
Qed.

Section Score.

Lemma count_items_le acc (d : gmap string value) :
  (acc.2 <= acc.1)%nat →
  ((count_items acc d).2 <= (count_items acc d).1)%nat.
Proof.
  intros H. rewrite count_items_list. simpl.
  pose proof (length_filter (λ v, filled v) (map_to_list d).*2) as Hl.
  rewrite length_fmap in Hl. lia.
Qed.

Lemma count_sections_le (data : gmap string value) :
  ((count_sections data).2 <= (count_sections data).1)%nat.
Proof.
  unfold count_sections. generalize sections_to_check.
  assert (((0%nat, 0%nat) : nat * nat).2 <= ((0%nat, 0%nat) : nat * nat).1)%nat
    as H by done.
  revert H. generalize ((0%nat, 0%nat) : nat * nat).
  intros acc H l. revert acc H.
  induction l as [|s l IH]; intros acc H; [done|]. simpl. apply IH.
  destruct (data !! s) as [[| | | | | |d]|]; try done. by apply count_items_le.
Qed.

(** For every dictionary, [_calculate_completeness_score] returns the
    integer 0 when the checked sections hold no field, and otherwise a number
    between 0 and 100, which is 100 when every field counted is completed. *)
Theorem completeness_score_range (data : gmap string value) :
  ((count_sections data).1 = 0%nat →
   _calculate_completeness_score data = VInt 0)
  ∧ ((count_sections data).1 ≠ 0%nat →
     ∃ q, _calculate_completeness_score data = VFloat q
          ∧ (0 <= q)%Q ∧ (q <= 100)%Q
          ∧ ((count_sections data).2 = (count_sections data).1 → q = 100%Q)).
Proof.
  pose proof (count_sections_le data) as Hle.
  unfold _calculate_completeness_score.
  destruct (count_sections data) as [total completed]. cbn [fst snd] in *.
  split.
  - by intros ->.
  - intros Hne. destruct (Nat.eqb_spec total 0) as [|_]; [done|].
    eexists. split; [done|].
    assert (0 < inject_Z (Z.of_nat total))%Q as Hpos.
    { change 0%Q with (inject_Z 0). rewrite <- Zlt_Qlt. lia. }
    assert (0 <= inject_Z (Z.of_nat completed))%Q as Hc.
    { change 0%Q with (inject_Z 0). rewrite <- Zle_Qle. lia. }
    assert (inject_Z (Z.of_nat completed) <= inject_Z (Z.of_nat total))%Q as Hct.
    { rewrite <- Zle_Qle. lia. }
    assert (0 <= inject_Z (Z.of_nat completed) / inject_Z (Z.of_nat total))%Q as Hr0.
    { apply Qle_shift_div_l; [done|]. lra. }
    assert (inject_Z (Z.of_nat completed) / inject_Z (Z.of_nat total) <= 1)%Q as Hr1.
    { apply Qle_shift_div_r; [done|]. lra. }
    destruct (round2_range (inject_Z (Z.of_nat completed)
                            / inject_Z (Z.of_nat total) * 100)) as [? ?];
      [lra|lra|].
    split; [done|]. split; [done|]. intros ->.
    rewrite (round2_comp _ 100); [done|]. field. lra.
Qed.

Lemma completeness_score_range_witness :
  ∃ q, _calculate_completeness_score
         (<["address" := VDict (<["city" := VStr (str_of "Austin")]>
                                (<["state" := VNone]> ∅))]> ∅) = VFloat q
       ∧ (0 <= q)%Q ∧ (q <= 100)%Q
       ∧ ((count_sections
             (<["address" := VDict (<["city" := VStr (str_of "Austin")]>
                                    (<["state" := VNone]> ∅))]> ∅)).2
          = (count_sections
               (<["address" := VDict (<["city" := VStr (str_of "Austin")]>
                                      (<["state" := VNone]> ∅))]> ∅)).1
          → q = 100%Q).
Proof.
  apply (proj2 (completeness_score_range
                  (<["address" := VDict (<["city" := VStr (str_of "Austin")]>
                                         (<["state" := VNone]> ∅))]> ∅))).
  vm_compute. discriminate.
Defined.

End Score.

Section TotalFields.

Implicit Types form_data : gmap string value.
Implicit Types files : gmap string file_obj.

Lemma total_fields_insert (m : gmap string value) k v :
  m !! k = None →
  total_fields (<[k := v]> m) = (total_fields m + keys_of v)%nat.
Proof.
  intros Hk. unfold total_fields. rewrite map_fold_insert_L; [by destruct v|..|done].
  intros j1 j2 z1 z2 y _ _ _. destruct z1, z2; lia.
Qed.

Lemma process_fields_size out_key fields form_data :
  NoDup (out_key <$> fields) →
  size (process_fields out_key fields form_data)
  = length (filter (λ f, is_defined form_data f) fields).
Proof.
  intros Hnd.
  rewrite <- length_map_to_list.
  rewrite (process_fields_items _ _ _ Hnd). apply assigned_length.
Qed.

Lemma total_fields_structured form_data files :
  total_fields (structured form_data files)
  = (length (filter (λ f, is_defined form_data f) all_fields)
     + size (named_uploads files))%nat.
Proof.
  assert (∀ v, total_fields
     (<["visit_information" := VDict (process_fields id visit_fields form_data)]>
     (<["medical_information" := VDict (process_fields id medical_fields form_data)]>
     (<["insurance_information" := VDict (process_fields id insurance_fields form_data)]>
     (<["emergency_contact" := VDict (process_fields clean_field emergency_fields form_data)]>
     (<["address" := VDict (process_fields id address_fields form_data)]>
     (<["contact_information" := VDict (process_fields id contact_fields form_data)]>
     (<["personal_information" := VDict (process_fields id personal_fields form_data)]>
      (v : gmap string value))))))))
     = (total_fields v + length (filter (λ f, is_defined form_data f) all_fields))%nat
       ∨ v ≠ ∅) as H.
  { intros v. destruct (decide (v = ∅)) as [->|]; [left|by right].
    rewrite !total_fields_insert
      by (rewrite ?lookup_insert_ne by done; apply lookup_empty).
    cbn [keys_of]. rewrite !process_fields_size by (by apply (bool_decide_unpack _); vm_compute).
    unfold all_fields. rewrite !filter_app, !length_app. lia. }
  destruct (H ∅) as [H0|]; [|done]. unfold structured.
  destruct (nonempty files) eqn:E.
  - rewrite total_fields_insert
      by (rewrite ?lookup_insert_ne by done; apply lookup_empty).
    rewrite H0.
    rewrite process_files_named.
    assert (total_fields ∅ = 0%nat) as -> by done.
    destruct (nonempty (named_uploads files)) eqn:En; [simpl; lia|].
    apply nonempty_false in En as ->. simpl. rewrite map_size_empty. lia.
  - rewrite H0. apply nonempty_false in E as ->.
    assert (total_fields ∅ = 0%nat) as -> by done.
    unfold named_uploads. rewrite omap_empty, map_size_empty. lia.
Qed.

(** The [total_fields] entry of [processing_info] is the number of listed
    raw fields submitted with a truthy value, whether or not anything is left
    of the value once sanitised, plus the number of uploads with a file
    name. *)
Theorem total_fields_counts processed_at form_data files :
  ∃ info,
    convert_form_to_json processed_at form_data files !! "processing_info"
    = Some (VDict info)
    ∧ info !! "total_fields"
      = Some (VInt (Z.of_nat
                (length (filter (λ f, is_defined form_data f) all_fields)
                 + size (named_uploads files)))).
Proof.
  destruct (convert_processing_info processed_at form_data files)
    as (info & H1 & _ & H3).
  exists info. split; [done|]. by rewrite H3, total_fields_structured.
Qed.

End TotalFields.

(** ** Required fields *)

Section Required.

Implicit Types form_data : gmap string value.

Lemma check_fields_dict section (d : gmap string value) fields acc :
  check_fields section (VDict d) fields (Return acc)
  = Return (acc ++ (dotted section
                      <$> filter (λ f, missing_in d f = true) fields)).
Proof.
  revert acc. induction fields as [|f fields IH]; intros acc.
  - simpl. by rewrite app_nil_r.
  - unfold check_fields in *. cbn [foldl].
    assert (field_missing (VDict d) f = Return (missing_in d f)) as ->.
    { unfold field_missing, contains, missing_in, subscript.
      destruct (d !! f) as [v|] eqn:E.
      - by rewrite bool_decide_eq_true_2 by eauto.
      - by rewrite bool_decide_eq_false_2 by (by intros [? ?]). }
    simpl. destruct (missing_in d f) eqn:E.
    + rewrite IH, filter_cons_True by done. rewrite fmap_cons, <- app_assoc. done.
    + rewrite IH, filter_cons_False by (by rewrite E). done.
Qed.

Lemma any_values_false (d : gmap string value) k :
  any_values d = false → missing_in d k = true.
Proof.
  unfold any_values, missing_in. intros H.
  destruct (d !! k) as [v|] eqn:E; [|done].
  apply elem_of_map_to_list in E.
  destruct (truthy v) eqn:T; [|done]. exfalso.
  assert (existsb truthy (map_to_list d).*2 = true) as Hx; [|by rewrite Hx in H].
  apply existsb_exists. exists v. split; [|done].
  apply list_elem_of_In, list_elem_of_fmap. by exists (k, v).
Qed.

Lemma filter_ext_in {A} (P Q : A → Prop) `{∀ x, Decision (P x)}
    `{∀ x, Decision (Q x)} (l : list A) :
  (∀ x, x ∈ l → P x ↔ Q x) → filter P l = filter Q l.
Proof.
  induction l as [|a l IH]; [done|]. intros Hl.
  rewrite !filter_cons. assert (P a ↔ Q a) as Ha by (apply Hl; by left).
  rewrite IH by (intros x Hx; apply Hl; by right).
  destruct (decide (P a)), (decide (Q a)); tauto || done.
Qed.

Lemma filter_all_in {A} (P : A → Prop) `{∀ x, Decision (P x)} (l : list A) :
  (∀ x, x ∈ l → P x) → filter P l = l.
Proof.
  induction l as [|a l IH]; [done|]. intros Hl.
  rewrite filter_cons_True by (apply Hl; by left).
  rewrite IH; [done|]. intros x Hx. apply Hl. by right.
Qed.

(** One section of the table, on the document of a submission. *)
Lemma check_section_document processed_at form_data files section out_key raw
    fields acc :
  (section, out_key, raw) ∈ schema →
  (∀ f, f ∈ fields → raw_name section f ∈ raw ∧ out_key (raw_name section f) = f) →
  check_section (convert_form_to_json processed_at form_data files)
    (Return acc) section fields
  = Return (acc ++ (dotted section
                      <$> filter (λ f, provided form_data section f = false) fields)).
Proof.
  intros Hs Hf. unfold check_section.
  assert (section ≠ "processing_info") as Hne.
  { intros ->. revert Hs. unfold schema. rewrite !elem_of_cons, elem_of_nil.
    intros H. by repeat (destruct H as [[= ]|H]). }
  rewrite convert_lookup, (structured_section _ _ _ _ _ Hs) by done.
  set (sec := process_fields out_key raw form_data).
  assert (∀ f, f ∈ fields →
            missing_in sec f = true ↔ provided form_data section f = false) as Hm.
  { intros f Hin. destruct (Hf f Hin) as [Hraw Hout].
    unfold missing_in, provided, sec. rewrite <- Hout at 1.
    rewrite (process_fields_lookup _ _ _ _ (schema_NoDup _ _ _ Hs) Hraw).
    destruct (submitted form_data (raw_name section f)) as [v|]; simpl; [|done].
    by destruct (truthy (_sanitize_field v)). }
  unfold keep. destruct (any_values sec) eqn:E.
  - rewrite (any_values_nonempty _ E). simpl.
    rewrite check_fields_dict.
    by rewrite (filter_ext_in (λ f, missing_in sec f = true)
                  (λ f, provided form_data section f = false) fields Hm).
  - rewrite andb_false_r.
    rewrite <- (filter_ext_in (λ f, missing_in sec f = true)
                  (λ f, provided form_data section f = false) fields Hm).
    rewrite filter_all_in; [done|]. intros f _. by apply any_values_false.
Qed.

Lemma elem_of_not_provided form_data s :
  s ∈ not_provided form_data
  ↔ ∃ section fields f,
      (section, fields) ∈ required_fields ∧ f ∈ fields
      ∧ provided form_data section f = false ∧ s = dotted section f.
Proof.
  unfold not_provided. rewrite list_elem_of_bind. split.
  - intros ([section fields] & Hs & Hin).
    apply list_elem_of_fmap in Hs as (f & -> & Hf).
    apply list_elem_of_filter in Hf as [Hp Hf]. by exists section, fields, f.
  - intros (section & fields & f & Hin & Hf & Hp & ->).
    exists (section, fields). split; [|done].
    apply list_elem_of_fmap. exists f. split; [done|].
    by apply list_elem_of_filter.
Qed.

(** On the document [convert_form_to_json] returns,
    [validate_required_fields] raises nothing and reports, in the order of
    its table, exactly the required fields whose raw field was not submitted
    with a value that is truthy once sanitised (those of a dropped section
    included); it reports nothing exactly when all eleven are provided. *)
Theorem validate_required_fields_of_document processed_at form_data files :
  validate_required_fields (convert_form_to_json processed_at form_data files)
  = Return (not_provided form_data)
  ∧ (validate_required_fields (convert_form_to_json processed_at form_data files)
     = Return []
     ↔ ∀ section fields f,
         (section, fields) ∈ required_fields → f ∈ fields →
         provided form_data section f = true).
Proof.
  assert (validate_required_fields
            (convert_form_to_json processed_at form_data files)
          = Return (not_provided form_data)) as Hv.
  { unfold validate_required_fields, required_fields. cbn [foldl].
    rewrite (check_section_document _ _ _ _ id personal_fields);
      [|unfold schema; set_solver
       |apply Forall_forall; by apply (bool_decide_unpack _); vm_compute].
    rewrite (check_section_document _ _ _ _ id contact_fields);
      [|unfold schema; set_solver
       |apply Forall_forall; by apply (bool_decide_unpack _); vm_compute].
    rewrite (check_section_document _ _ _ _ id address_fields);
      [|unfold schema; set_solver
       |apply Forall_forall; by apply (bool_decide_unpack _); vm_compute].
    rewrite (check_section_document _ _ _ _ clean_field emergency_fields);
      [|unfold schema; set_solver
       |apply Forall_forall; by apply (bool_decide_unpack _); vm_compute].
    rewrite (check_section_document _ _ _ _ id visit_fields);
      [|unfold schema; set_solver
       |apply Forall_forall; by apply (bool_decide_unpack _); vm_compute].
    unfold not_provided, required_fields. simpl. by rewrite !app_nil_r, <- !app_assoc. }
  split; [done|]. rewrite Hv. split.
  - intros [= He] section fields f Hin Hf.
    destruct (provided form_data section f) eqn:Hp; [done|]. exfalso.
    assert (dotted section f ∈ not_provided form_data) as Hx.
    { apply elem_of_not_provided. by exists section, fields, f. }
    rewrite He in Hx. by apply elem_of_nil in Hx.
  - intros Hall. f_equal. destruct (not_provided form_data) as [|s l] eqn:E; [done|].
    assert (s ∈ not_provided form_data) as Hx by (rewrite E; by left).
    apply elem_of_not_provided in Hx as (section & fields & f & Hin & Hf & Hp & _).
    by rewrite (Hall section fields f Hin Hf) in Hp.
Qed.

Lemma check_fields_Raise section container fields e :
  check_fields section container fields (Raise e) = Raise e.
Proof. unfold check_fields. by induction fields. Qed.

Lemma check_section_Raise data section fields e :
  check_section data (Raise e) section fields = Raise e.
Proof.
  unfold check_section. destruct (data !! section); [|done].
  apply check_fields_Raise.
Qed.

Lemma check_fields_not_iterable section v f fields acc :
  not_iterable v = true →
  check_fields section v (f :: fields) (Return acc) = Raise TypeError.
Proof.
  intros Hv. unfold check_fields. cbn [foldl].
  assert (field_missing v f = Raise TypeError) as -> by (by destruct v).
  apply (check_fields_Raise section v fields TypeError).
Qed.

(** On a dictionary whose required sections, where present, are
    dictionaries, [validate_required_fields] raises nothing and reports, in
    the order of its table, every field of an absent section and every field
    absent from, or falsy in, a section that is present. *)
Theorem validate_required_fields_reports (data : gmap string value) :
  (∀ section fields v,
     (section, fields) ∈ required_fields → data !! section = Some v →
     ∃ d, v = VDict d) →
  validate_required_fields data
  = Return ('(section, fields) ← required_fields;
            dotted section
              <$> filter (λ f, missing_at data section f = true) fields).
Proof.
  intros Hd.
  assert (∀ section fields acc,
            (section, fields) ∈ required_fields →
            check_section data (Return acc) section fields
            = Return (acc ++ (dotted section
                        <$> filter (λ f, missing_at data section f = true) fields)))
    as Hstep.
  { intros section fields acc Hin. unfold check_section, missing_at.
    destruct (data !! section) as [v|] eqn:E.
    - destruct (Hd _ _ _ Hin E) as [d ->]. apply check_fields_dict.
    - simpl. by rewrite filter_all_in. }
  unfold validate_required_fields.
  assert (∀ l acc, (∀ x, x ∈ l → x ∈ required_fields) →
            foldl (λ acc '(section, fields), check_section data acc section fields)
              (Return acc) l
            = Return (acc ++ ('(section, fields) ← l;
                        dotted section
                          <$> filter (λ f, missing_at data section f = true) fields)))
    as Hfold.
  { induction l as [|[section fields] l IH]; intros acc Hl.
    - simpl. by rewrite app_nil_r.
    - cbn [foldl]. rewrite Hstep by (apply Hl; by left).
      rewrite IH by (intros x Hx; apply Hl; by right).
      by rewrite <- app_assoc. }
  by rewrite Hfold.
Qed.

Lemma validate_required_fields_reports_witness :
  validate_required_fields
    (<["visit_information" := VDict (<["reason_for_visit" := VNone]> ∅)]> ∅)
  = Return ('(section, fields) ← required_fields;
            dotted section
              <$> filter (λ f, missing_at
                     (<["visit_information" :=
                          VDict (<["reason_for_visit" := VNone]> ∅)]> ∅)
                     section f = true) fields).
Proof.
  apply validate_required_fields_reports.
  intros section fields v Hin. rewrite lookup_insert_Some, lookup_empty.
  intros [[_ <-]|[_ ?]]; [by eexists|done].
Defined.

(** A required section bound to [None], a boolean or a number makes
    [validate_required_fields] raise [TypeError]; and [TypeError] is the only
    exception it raises. *)
Theorem validate_required_fields_raises (data : gmap string value) :
  (∀ section fields v,
     (section, fields) ∈ required_fields → data !! section = Some v →
     not_iterable v = true →
     validate_required_fields data = Raise TypeError)
  ∧ (∀ e, validate_required_fields data = Raise e → e = TypeError).
Proof.
  assert (∀ section fields acc e,
            check_fields section (default VNone (data !! section)) fields (Return acc)
            = Raise e → e = TypeError) as Hcf.
  { intros section fields. generalize (default VNone (data !! section)).
    intros c. unfold check_fields.
    induction fields as [|f fields IH]; intros acc e; [done|]. cbn [foldl].
    destruct (field_missing c f) as [m|e'] eqn:E; simpl.
    - apply IH.
    - pose proof (check_fields_Raise section c fields e') as Hr.
      unfold check_fields in Hr. rewrite Hr. intros [= <-].
      unfold field_missing, contains in E.
      destruct c as [| | | |s|l|d]; simpl in E; try (by injection E as <-).
      + destruct (occurs_in _ _); simpl in E; [by injection E as <-|done].
      + destruct (existsb _ _); simpl in E; [by injection E as <-|done].
      + destruct (bool_decide _) eqn:B; simpl in E; [|done].
        apply bool_decide_eq_true_1 in B as [v Hv].
        unfold subscript in E. by rewrite Hv in E. }
  assert (∀ section fields acc e,
            check_section data (Return acc) section fields = Raise e →
            e = TypeError) as Hcs.
  { intros section fields acc e. unfold check_section.
    specialize (Hcf section fields acc e).
    destruct (data !! section); [done|]. done. }
  assert (∀ l r e,
            (∀ e', r = Raise e' → e' = TypeError) →
            foldl (λ acc '(section, fields), check_section data acc section fields)
              r l = Raise e → e = TypeError) as Hfold.
  { induction l as [|[section fields] l IH]; intros r e Hr; [apply Hr|].
    cbn [foldl]. apply IH. intros e'. destruct r as [acc|e0].
    - apply Hcs.
    - rewrite check_section_Raise. intros [= <-]. by apply Hr. }
  split.
  - intros section fields v Hin Hv Hni. unfold validate_required_fields.
    revert Hin. unfold required_fields. rewrite !elem_of_cons, elem_of_nil.
    assert (∀ l e, foldl (λ acc '(section, fields),
                            check_section data acc section fields) (Raise e) l
                   = Raise e) as Hr.
    { induction l as [|[s fs] l IH]; intros e; [done|].
      cbn [foldl]. by rewrite check_section_Raise. }
    assert (∀ pre f fs post,
              foldl (λ acc '(section, fields),
                       check_section data acc section fields) (Return [])
                (pre ++ (section, f :: fs) :: post) = Raise TypeError) as Hat.
    { intros pre f fs post. rewrite foldl_app. cbn [foldl].
      destruct (foldl _ (Return []) pre) as [acc|e] eqn:E.
      - assert (check_section data (Return acc) section (f :: fs)
                = Raise TypeError) as ->; [|apply Hr].
        unfold check_section. rewrite Hv. by apply check_fields_not_iterable.
      - rewrite check_section_Raise, Hr.
        by rewrite (Hfold pre (Return []) e). }
    intros [[= -> ->]|[[= -> ->]|[[= -> ->]|[[= -> ->]|[[= -> ->]|[]]]]]].
    + apply (Hat []).
    + apply (Hat [_]).
    + apply (Hat [_; _]).
    + apply (Hat [_; _; _]).
    + apply (Hat [_; _; _; _]).
  - intros e. by apply Hfold.
Qed.

Lemma validate_required_fields_raises_witness :
  validate_required_fields (<["address" := VNone]> ∅) = Raise TypeError.
Proof.
  apply (proj1 (validate_required_fields_raises (<["address" := VNone]> ∅))
           "address" ["street_address"; "city"; "state"; "zip_code"]%string VNone).
  - unfold required_fields. rewrite !elem_of_cons. auto.
  - reflexivity.
  - reflexivity.
Defined.

End Required.
